(** * AutoGuardian dashboard: the aggregation engine and its refresh policy

    A shallow embedding of
      - [static/js/dashboard.js]: [avg], [fmt], [computeMetrics],
        [renderCharts], [updateAIMetrics], [updateDashboard] and the
        auto-refresh timer handler;
      - [frontend/src/pages/Dashboard.js]: [fetchDashboardData] and
        [handleRescan].

    Scope of the model:
      - numbers are the rationals [Q] with exact arithmetic, where the code
        computes on IEEE 754 binary64 numbers. Comparisons, [Math.round],
        [Math.min] and [Math.max] are the same on both; sums, products,
        quotients and differences are exact here and rounded there, so the
        statements on the [Q] model say nothing that turns on the value
        such a result is rounded to. The trend classifier, whose result
        turns on a difference, is embedded on binary64 numbers in
        [Binary64];
      - a string of the model is the UTF-8 encoding of the JavaScript
        string (well-formed text), as a string literal of this file is;
        [trim] removes the white space and the line terminators of
        ECMAScript in that encoding;
      - the objects [perDay], [bySender], [byRule], [collSenders] and
        [riskOverTime] are modelled by their own properties, in creation
        order, each holding a count. This is what the code builds as long
        as no key is the name of a property the object inherits from
        [Object.prototype] ([inherited]): under such a key
        [o[k] = (o[k] || 0) + 1] reads the inherited value and stores a
        string, or nothing for [__proto__]. The statements about what a
        counter holds carry the hypothesis that the keys met are not
        inherited names;
      - in [React] the counter [polls] and the timer of [handleRescan] are
        those of one call, no callback of an earlier call being left;
      - a record's [score], sub-scores and sender identities are of the type
        the data model gives them, or absent; the other fields are arbitrary
        JSON values. *)

From Stdlib Require Import String Ascii List Bool Arith PeanoNat NArith ZArith
  QArith Qround Lia Lqa Sorted Permutation Floats.
Import ListNotations.
Local Open Scope string_scope.
Local Open Scope list_scope.

(** ** JavaScript values and built-ins used by the dashboard *)

Module JS.

(** A value as [JSON.parse] delivers it, plus [Undefined] for a property
    that is not there. *)
#[local] Set Warnings "-register-all".
Inductive value :=
| Undefined
| Null
| Bool (b : bool)
| Num (q : Q)
| Str (s : string)
| Arr (items : list value)
| Obj (fields : list (string * value)).
#[local] Set Warnings "register-all".

(** ToBoolean. *)
Definition truthy (v : value) : bool :=
  match v with
  | Undefined | Null => false
  | Bool b => b
  | Num q => negb (Qeq_bool q 0)
  | Str s => negb (s =? "")
  | Arr _ | Obj _ => true
  end.

(** [a || b]. *)
Definition or_else (a b : value) : value := if truthy a then a else b.

(** Exceptions: the only one the dashboard code can throw on JSON data is a
    TypeError (calling a method that the receiver does not have). *)
Inductive result (A : Type) :=
| Ok (a : A)
| TypeError.
Arguments Ok {A} a.
Arguments TypeError {A}.

Definition bind {A B} (r : result A) (k : A -> result B) : result B :=
  match r with
  | Ok a => k a
  | TypeError => TypeError
  end.

(** [forEach] with a callback that may throw, threading the object the
    callback mutates. *)
Fixpoint forEach {A S} (f : A -> S -> result S) (l : list A) (s : S) : result S :=
  match l with
  | [] => Ok s
  | x :: r => bind (f x s) (forEach f r)
  end.

(** *** Numbers that may be absent: [undefined] or a number *)

Definition truthy_num (a : option Q) : bool :=
  match a with
  | Some q => negb (Qeq_bool q 0)
  | None => false
  end.

(** [a || b] on two possibly absent numbers. *)
Definition or_num (a b : option Q) : option Q := if truthy_num a then a else b.

(** [a || 0]. *)
Definition or_zero (a : option Q) : Q :=
  match a with
  | Some q => if Qeq_bool q 0 then 0 else q
  | None => 0
  end.

Definition Qltb (a b : Q) : bool := negb (Qle_bool b a).

(** [Math.round]: the integer nearest to [x], halves rounded up. *)
Definition Math_round (x : Q) : Z := Qfloor (x + (1 # 2)).

(** *** Strings *)

(** [s.split(sep)] for a one-character separator. *)
Fixpoint split (sep : ascii) (s : string) : list string :=
  match s with
  | EmptyString => [EmptyString]
  | String c r =>
      if Ascii.eqb c sep then EmptyString :: split sep r
      else match split sep r with
           | [] => [String c EmptyString]
           | h :: t => String c h :: t
           end
  end.

(** The white space and the line terminators of ECMAScript ([WhiteSpace],
    [LineTerminator]) in UTF-8. One byte: U+0009 to U+000D and U+0020. *)
Definition is_space (c : ascii) : bool :=
  let n := nat_of_ascii c in
  (n =? 9)%nat || (n =? 10)%nat || (n =? 11)%nat || (n =? 12)%nat
  || (n =? 13)%nat || (n =? 32)%nat.

(** Two bytes: U+00A0. *)
Definition is_space2 (c1 c2 : ascii) : bool :=
  (nat_of_ascii c1 =? 194)%nat && (nat_of_ascii c2 =? 160)%nat.

(** Three bytes: U+1680, U+2000 to U+200A, U+2028, U+2029, U+202F, U+205F,
    U+3000 and U+FEFF. *)
Definition is_space3 (c1 c2 c3 : ascii) : bool :=
  let a := nat_of_ascii c1 in
  let b := nat_of_ascii c2 in
  let c := nat_of_ascii c3 in
  ((a =? 225)%nat && (b =? 154)%nat && (c =? 128)%nat)
  || ((a =? 226)%nat && (b =? 128)%nat
      && (((128 <=? c)%nat && (c <=? 138)%nat)
          || (c =? 168)%nat || (c =? 169)%nat || (c =? 175)%nat))
  || ((a =? 226)%nat && (b =? 129)%nat && (c =? 159)%nat)
  || ((a =? 227)%nat && (b =? 128)%nat && (c =? 128)%nat)
  || ((a =? 239)%nat && (b =? 187)%nat && (c =? 191)%nat).

(** The rest of a string behind one leading white-space character, when
    the string begins with one. *)
Definition skip_space (s : string) : option string :=
  match s with
  | EmptyString => None
  | String c1 r1 =>
      if is_space c1 then Some r1
      else match r1 with
           | EmptyString => None
           | String c2 r2 =>
               if is_space2 c1 c2 then Some r2
               else match r2 with
                    | EmptyString => None
                    | String c3 r3 =>
                        if is_space3 c1 c2 c3 then Some r3 else None
                    end
           end
  end.

Fixpoint trimStart (s : string) : string :=
  match s with
  | EmptyString => EmptyString
  | String c1 r1 =>
      if is_space c1 then trimStart r1
      else match r1 with
           | EmptyString => s
           | String c2 r2 =>
               if is_space2 c1 c2 then trimStart r2
               else match r2 with
                    | EmptyString => s
                    | String c3 r3 =>
                        if is_space3 c1 c2 c3 then trimStart r3 else s
                    end
           end
  end.

(** A string made of white space only is trimmed to the empty string; any
    other string keeps its first byte. *)
Fixpoint trimEnd (s : string) : string :=
  match s with
  | EmptyString => EmptyString
  | String c r =>
      if trimStart s =? "" then EmptyString else String c (trimEnd r)
  end.

(** [s.trim()]. *)
Definition trim (s : string) : string := trimEnd (trimStart s).

(** [v.split(sep)] on an arbitrary value: only a string has the method; on
    any other value the property is [undefined] (or the receiver is
    [null]/[undefined]) and the call throws. *)
Definition call_split (v : value) (sep : ascii) : result (list string) :=
  match v with
  | Str s => Ok (split sep s)
  | _ => TypeError
  end.

(** *** Objects used as counters: [{}] with [o[k] = (o[k] || 0) + 1] *)

(** The own properties of the object, in creation order, each with its
    count. *)
Definition counts := list (string * nat).

(** The names of the properties an object [{}] inherits from
    [Object.prototype]. Under such a key [o[k]] is not [undefined] on a
    fresh object, and [o[k] = (o[k] || 0) + 1] does not store a count
    (for [__proto__] it stores nothing): the counter objects model the
    code on the other keys. *)
Definition Object_prototype : list string :=
  ["constructor"; "hasOwnProperty"; "isPrototypeOf"; "propertyIsEnumerable";
   "toLocaleString"; "toString"; "valueOf"; "__proto__";
   "__defineGetter__"; "__defineSetter__"; "__lookupGetter__";
   "__lookupSetter__"].

Definition inherited (k : string) : bool :=
  existsb (fun n => n =? k) Object_prototype.

(** No key of the sequence is an inherited name. *)
Definition own_keys (ks : list string) : bool :=
  forallb (fun k => negb (inherited k)) ks.

Fixpoint lookup (k : string) (o : counts) : option nat :=
  match o with
  | [] => None
  | (k', n) :: r => if k' =? k then Some n else lookup k r
  end.

(** [o[k] || 0] *)
Definition count_or_0 (c : option nat) : nat :=
  match c with
  | Some n => n
  | None => 0
  end.

(** [o[k] = (o[k] || 0) + 1] for a key that is not an inherited name: an
    existing property keeps its place, a new one is created last. *)
Fixpoint bump (k : string) (o : counts) : counts :=
  match o with
  | [] => [(k, 1%nat)]
  | (k', n) :: r => if k' =? k then (k', S n) :: r else (k', n) :: bump k r
  end.

(** The counter object after one pass over a sequence of keys. *)
Definition tally (ks : list string) : counts :=
  fold_left (fun o k => bump k o) ks [].

(** The same assignment on any key. A property then holds a count or a
    string: the text of a function, or of an object, with the digits [1]
    appended to it; the model does not keep the text. *)
Inductive cell :=
| Count (n : nat)
| Text.

Definition cells := list (string * cell).

Fixpoint get (k : string) (o : cells) : option cell :=
  match o with
  | [] => None
  | (k', c) :: r => if k' =? k then Some c else get k r
  end.

(** [o[k] = v] on an own property, or creating one. *)
Fixpoint put (k : string) (v : cell) (o : cells) : cells :=
  match o with
  | [] => [(k, v)]
  | (k', c) :: r => if k' =? k then (k', v) :: r else (k', c) :: put k v r
  end.

(** [o[k] = (o[k] || 0) + 1] on an object created by [{}]. An own count
    is incremented. An own string is truthy and [+ 1] appends to it.
    Without an own property [o[k]] is [undefined] and the count 1 is
    stored, unless [k] is an inherited name: then [o[k]] is a function, or
    [Object.prototype] itself under [__proto__], [+ 1] makes a string of it,
    and the string is stored, except under [__proto__], whose setter
    ignores a string. *)
Definition assign (k : string) (o : cells) : cells :=
  match get k o with
  | Some (Count n) => put k (Count (S n)) o
  | Some Text => put k Text o
  | None =>
      if inherited k then (if k =? "__proto__" then o else put k Text o)
      else put k (Count 1) o
  end.

(** A counter of the model as the object it stands for. *)
Definition as_cells (o : counts) : cells :=
  map (fun e => (fst e, Count (snd e))) o.

(** A property key is an array index when it is the canonical decimal
    numeral of an integer in [0, 2^32 - 2]. *)
Definition digit (c : ascii) : option N :=
  let n := N_of_ascii c in
  if ((48 <=? n) && (n <=? 57))%N then Some (n - 48)%N else None.

Fixpoint digits (s : string) (acc : N) : option N :=
  match s with
  | EmptyString => Some acc
  | String c r =>
      match digit c with
      | Some d => digits r (acc * 10 + d)%N
      | None => None
      end
  end.

Definition array_index (k : string) : option N :=
  match k with
  | EmptyString => None
  | String c r =>
      if Ascii.eqb c "0"%char then
        (if r =? "" then Some 0%N else None)
      else
        match digits k 0 with
        | Some n => if (n <? 4294967295)%N then Some n else None
        | None => None
        end
  end.

(** Ascending insertion by array index. *)
Fixpoint insert_index (x : N * (string * nat)) (l : list (N * (string * nat)))
  : list (N * (string * nat)) :=
  match l with
  | [] => [x]
  | y :: r => if (fst x <? fst y)%N then x :: l else y :: insert_index x r
  end.

Definition index_props (o : counts) : list (N * (string * nat)) :=
  flat_map (fun e => match array_index (fst e) with
                     | Some i => [(i, e)]
                     | None => []
                     end) o.

Definition named_props (o : counts) : counts :=
  filter (fun e => match array_index (fst e) with
                   | Some _ => false
                   | None => true
                   end) o.

(** [Object.entries(o)]: own property keys are enumerated with the array
    indices first, in ascending numeric order, then the other string keys in
    the order they were created (OrdinaryOwnPropertyKeys). *)
Definition entries (o : counts) : list (string * nat) :=
  map snd (fold_right insert_index [] (index_props o)) ++ named_props o.

(** [arr.sort((a,b) => b[1] - a[1])]: [Array.prototype.sort] is stable; the
    comparator orders by count, larger first. Stable insertion sort: the
    result of a stable sort does not depend on the algorithm. *)
Fixpoint insert_desc (x : string * nat) (l : list (string * nat))
  : list (string * nat) :=
  match l with
  | [] => [x]
  | y :: r => if (snd y <=? snd x)%nat then x :: l else y :: insert_desc x r
  end.

(** Each element, from the last to the first, is inserted in front of the
    elements placed so far that do not have a larger count. *)
Definition sort_desc (l : list (string * nat)) : list (string * nat) :=
  fold_right insert_desc [] l.

(** The orders the two sorts establish. *)
Definition desc (a b : string * nat) : Prop := (snd b <= snd a)%nat.

Definition by_index (a b : N * (string * nat)) : Prop := (fst a <= fst b)%N.

(** Position of the first element that satisfies [p]; the length of the
    list when there is none. *)
Fixpoint first_index {A} (p : A -> bool) (l : list A) : nat :=
  match l with
  | [] => 0
  | x :: r => if p x then 0 else S (first_index p r)
  end.

(** Where a key is first seen in a sequence of keys, and where it stands in
    a list of (key, count) entries. *)
Definition first_seen (k : string) (ks : list string) : nat :=
  first_index (fun s => s =? k) ks.

Definition rank_of (k : string) (es : list (string * nat)) : nat :=
  first_index (fun e => fst e =? k) es.

(** [arr.slice(0, n)]. *)
Definition slice0 {A} (n : nat) (l : list A) : list A := firstn n l.

(** [arr.slice(-n)]. *)
Definition slice_last {A} (n : nat) (l : list A) : list A :=
  skipn (length l - n) l.

End JS.

(** ** static/js/dashboard.js *)

Module Static.
Import JS.

(** [ai_details]: the three sub-scores, each a number or absent. *)
Record AiDetails := {
  zero_shot : option Q;
  transformer : option Q;
  hybrid_score : option Q
}.

(** One scan record of [scanHistory] or [collective]. [score], the
    sub-scores and the sender identities carry the type of the data model (a
    number, a string) or are absent ([null], [undefined], no such key); the
    fields on which the code calls a String method, tests truthiness or
    compares with [===] are raw JSON values, so that a wrong-typed
    [timestamp] or [matched_rules] is an input. *)
Record ScanRecord := {
  sender : option string;
  email_from : option string;
  score : option Q;
  risk_level : value;
  timestamp : value;
  matched_rules : value;
  quarantine : value;
  ai_details : option AiDetails
}.

(** [avg = arr => arr.length ? arr.reduce((a,b)=>a+b,0)/arr.length : 0],
    the sum and the quotient taken exactly. *)
Definition avg (arr : list Q) : Q :=
  match arr with
  | [] => 0
  | _ => fold_left Qplus arr 0 / inject_Z (Z.of_nat (length arr))
  end.

(** [fmt = n => isNaN(n) ? 0 : Math.round(n * 100) / 100], the product and
    the quotient taken exactly; a rational is never NaN. *)
Definition fmt (n : Q) : Q := inject_Z (Math_round (n * 100)) / 100.

(** [e.score || 0] *)
Definition score_of (e : ScanRecord) : Q := or_zero (score e).

Definition is_high (s : Q) : bool := Qle_bool 7 s.
Definition is_med (s : Q) : bool := Qle_bool 4 s && Qltb s 7.
Definition is_low (s : Q) : bool := Qltb s 4.

(** [(e.timestamp || '').split('T')[0]] *)
Definition date_of (ts : value) : result string :=
  bind (call_split (or_else ts (Str "")) "T"%char)
       (fun parts => Ok (hd "" parts)).

(** The [perDay] pass: [if (!date) return; perDay[date] = (perDay[date]||0)+1]. *)
Definition perDay_step (e : ScanRecord) (perDay : counts) : result counts :=
  bind (date_of (timestamp e))
       (fun date => Ok (if date =? "" then perDay else bump date perDay)).

(** [e.sender || e.email_from || ''] on possibly absent strings. *)
Definition local_identity (e : ScanRecord) : string :=
  match sender e with
  | Some s => if s =? "" then match email_from e with Some f => f | None => "" end
              else s
  | None => match email_from e with Some f => f | None => "" end
  end.

(** The [bySender] pass. *)
Definition bySender_step (e : ScanRecord) (bySender : counts) : counts :=
  let sender := local_identity e in
  if sender =? "" then bySender else bump sender bySender.

Definition bySender_of (scanHistory : list ScanRecord) : counts :=
  fold_left (fun o e => bySender_step e o) scanHistory [].

(** [(e.matched_rules || '').split(',').map(r => r.trim()).filter(Boolean)] *)
Definition rules_of (mr : value) : result (list string) :=
  bind (call_split (or_else mr (Str "")) ","%char)
       (fun parts => Ok (filter (fun r => negb (r =? "")) (map trim parts))).

(** The [byRule] pass: [for (const r of rules) byRule[r] = (byRule[r]||0)+1]. *)
Definition byRule_step (e : ScanRecord) (byRule : counts) : result counts :=
  bind (rules_of (matched_rules e))
       (fun rules => Ok (fold_left (fun o r => bump r o) rules byRule)).

(** The keys the three counting passes meet, in the order they meet them. *)
Definition local_ids (scanHistory : list ScanRecord) : list string :=
  filter (fun s => negb (s =? "")) (map local_identity scanHistory).

Definition collective_ids (collective : list ScanRecord) : list string :=
  filter (fun s => negb (s =? ""))
         (map (fun r => match sender r with Some s => s | None => "" end) collective).

Definition rule_tokens (scanHistory : list ScanRecord) : result (list string) :=
  forEach (fun e seen => bind (rules_of (matched_rules e))
                              (fun rules => Ok (seen ++ rules)))
          scanHistory [].

Module Metrics.
Record t := {
  high : nat; med : nat; low : nat;
  perDay : counts; bySender : counts; byRule : counts;
  quarantine : nat; total : nat; highPct : Q
}.
End Metrics.

(** The histogram lines of [computeMetrics]. *)
Definition histogram (scanHistory : list ScanRecord) : nat * nat * nat :=
  let scores := map score_of scanHistory in
  (length (filter is_high scores),
   length (filter is_med scores),
   length (filter is_low scores)).

(** What one more record adds to the three counts. *)
Definition add_bucket (s : Q) (h : nat * nat * nat) : nat * nat * nat :=
  let '(hi, me, lo) := h in
  ((if is_high s then S hi else hi),
   (if is_med s then S me else me),
   (if is_low s then S lo else lo)).

Definition computeMetrics (scanHistory : list ScanRecord) : result Metrics.t :=
  let scores := map score_of scanHistory in
  let high := length (filter is_high scores) in
  let med := length (filter is_med scores) in
  let low := length (filter is_low scores) in
  let total := length scores in
  bind (forEach perDay_step scanHistory []) (fun perDay =>
  let bySender := bySender_of scanHistory in
  bind (forEach byRule_step scanHistory []) (fun byRule =>
  let quarantine := length (filter (fun e => truthy (quarantine e)) scanHistory) in
  let highPct :=
    match total with
    | O => 0
    | _ => fmt (inject_Z (Z.of_nat high) / inject_Z (Z.of_nat total) * 100)
    end in
  Ok {| Metrics.high := high; Metrics.med := med; Metrics.low := low;
        Metrics.perDay := perDay; Metrics.bySender := bySender;
        Metrics.byRule := byRule; Metrics.quarantine := quarantine;
        Metrics.total := total; Metrics.highPct := highPct |})).

(** *** What the page shows *)

Inductive Trend := Rising | Falling | Stable.
Inductive RiskLabel := Safe | Medium | HighRisk.

(** The charts object [charts], keyed by chart id; [None] is a chart that has
    been destroyed or not drawn yet. *)
Inductive ChartId := risk | scans | threats | senders | rules | trend.

(** A chart's data: the three counts of the doughnut, or the labels of a
    line or bar chart each with its value. *)
Inductive ChartData :=
| Doughnut (high med low : nat)
| Series (points : list (string * nat)).

Definition ChartId_eqb (a b : ChartId) : bool :=
  match a, b with
  | risk, risk | scans, scans | threats, threats
  | senders, senders | rules, rules | trend, trend => true
  | _, _ => false
  end.

Definition Charts := ChartId -> option ChartData.

Definition draw (id : ChartId) (d : ChartData) (c : Charts) : Charts :=
  fun i => if ChartId_eqb i id then Some d else c i.

Definition destroy (id : ChartId) (c : Charts) : Charts :=
  fun i => if ChartId_eqb i id then None else c i.

(** The text of the elements the script writes, as the value written. *)
Record Page := {
  totalScansEl : nat;
  highRiskPctEl : Q;
  quarantineCountEl : nat;
  threatIndexEl : Q;
  aiZSAvg : Q;
  aiTRAvg : Q;
  aiHYAvg : Q;
  aiOverallScoreEl : Z;
  aiTrend : Trend;
  aiRiskLabelEl : RiskLabel;
  charts : Charts;
  lastRefEl : string
}.

(** A computation that writes to the page and may throw: what it has
    written before throwing stays written. *)
Definition M (A : Type) := Page -> Page * result A.

Definition ret {A} (a : A) : M A := fun p => (p, Ok a).

Definition bindM {A B} (m : M A) (k : A -> M B) : M B :=
  fun p => let (p', r) := m p in
           match r with
           | Ok a => k a p'
           | TypeError => (p', TypeError)
           end.

Definition lift {A} (r : result A) : M A := fun p => (p, r).

Definition write (f : Page -> Page) : M unit := fun p => (f p, Ok tt).

Declare Scope page_scope.
Delimit Scope page_scope with page.
Notation "x <- m ;; k" := (bindM m (fun x => k))
  (at level 61, m at next level, right associativity) : page_scope.
Notation "m ;; k" := (bindM m (fun _ => k))
  (at level 61, right associativity) : page_scope.

Definition set_summary (total : nat) (highPct : Q) (quarantine : nat) (p : Page) : Page :=
  {| totalScansEl := total; highRiskPctEl := highPct;
     quarantineCountEl := quarantine; threatIndexEl := threatIndexEl p;
     aiZSAvg := aiZSAvg p; aiTRAvg := aiTRAvg p; aiHYAvg := aiHYAvg p;
     aiOverallScoreEl := aiOverallScoreEl p; aiTrend := aiTrend p;
     aiRiskLabelEl := aiRiskLabelEl p; charts := charts p;
     lastRefEl := lastRefEl p |}.

Definition set_threatIndex (v : Q) (p : Page) : Page :=
  {| totalScansEl := totalScansEl p; highRiskPctEl := highRiskPctEl p;
     quarantineCountEl := quarantineCountEl p; threatIndexEl := v;
     aiZSAvg := aiZSAvg p; aiTRAvg := aiTRAvg p; aiHYAvg := aiHYAvg p;
     aiOverallScoreEl := aiOverallScoreEl p; aiTrend := aiTrend p;
     aiRiskLabelEl := aiRiskLabelEl p; charts := charts p;
     lastRefEl := lastRefEl p |}.

Definition set_ai (zs tr hy : Q) (overall : Z) (t : Trend) (l : RiskLabel)
  (p : Page) : Page :=
  {| totalScansEl := totalScansEl p; highRiskPctEl := highRiskPctEl p;
     quarantineCountEl := quarantineCountEl p; threatIndexEl := threatIndexEl p;
     aiZSAvg := zs; aiTRAvg := tr; aiHYAvg := hy;
     aiOverallScoreEl := overall; aiTrend := t;
     aiRiskLabelEl := l; charts := charts p;
     lastRefEl := lastRefEl p |}.

Definition set_charts (f : Charts -> Charts) (p : Page) : Page :=
  {| totalScansEl := totalScansEl p; highRiskPctEl := highRiskPctEl p;
     quarantineCountEl := quarantineCountEl p; threatIndexEl := threatIndexEl p;
     aiZSAvg := aiZSAvg p; aiTRAvg := aiTRAvg p; aiHYAvg := aiHYAvg p;
     aiOverallScoreEl := aiOverallScoreEl p; aiTrend := aiTrend p;
     aiRiskLabelEl := aiRiskLabelEl p; charts := f (charts p);
     lastRefEl := lastRefEl p |}.

Definition set_lastRef (v : string) (p : Page) : Page :=
  {| totalScansEl := totalScansEl p; highRiskPctEl := highRiskPctEl p;
     quarantineCountEl := quarantineCountEl p; threatIndexEl := threatIndexEl p;
     aiZSAvg := aiZSAvg p; aiTRAvg := aiTRAvg p; aiHYAvg := aiHYAvg p;
     aiOverallScoreEl := aiOverallScoreEl p; aiTrend := aiTrend p;
     aiRiskLabelEl := aiRiskLabelEl p; charts := charts p;
     lastRefEl := v |}.

(** *** renderCharts *)

(** [Object.entries(o).sort((a,b)=>b[1]-a[1]).slice(0,7)] *)
Definition top7 (o : counts) : list (string * nat) :=
  slice0 7 (sort_desc (entries o)).

(** [if (r.sender) collSenders[r.sender] = (collSenders[r.sender] || 0) + 1] *)
Definition collSenders_step (r : ScanRecord) (collSenders : counts) : counts :=
  match sender r with
  | Some s => if s =? "" then collSenders else bump s collSenders
  | None => collSenders
  end.

Definition is_string (v : value) (s : string) : bool :=
  match v with
  | Str s' => s' =? s
  | _ => false
  end.

(** The [riskOverTime] pass over [collective]. *)
Definition riskOverTime_step (r : ScanRecord) (riskOverTime : counts) : result counts :=
  if negb (truthy (timestamp r)) then Ok riskOverTime
  else
    bind (call_split (timestamp r) "T"%char) (fun parts =>
    let day := hd "" parts in
    Ok (if is_string (risk_level r) "High" || is_string (risk_level r) "Suspicious"
        then bump day riskOverTime else riskOverTime)).

Definition collSenders_of (collective : list ScanRecord) : counts :=
  fold_left (fun o r => collSenders_step r o) collective [].

Definition renderCharts (scanHistory collective : list ScanRecord) : M unit :=
  (m <- lift (computeMetrics scanHistory) ;;
   write (set_charts (fun c =>
     destroy trend (destroy rules (destroy senders
       (destroy threats (destroy scans (destroy risk c))))))) ;;
   write (set_charts (draw risk
     (Doughnut (Metrics.high m) (Metrics.med m) (Metrics.low m)))) ;;
   write (set_charts (draw scans (Series (entries (Metrics.perDay m))))) ;;
   let risky := top7 (Metrics.bySender m) in
   write (set_charts (draw threats (Series risky))) ;;
   let collSenders := collSenders_of collective in
   let topSenders := top7 collSenders in
   write (set_charts (draw senders (Series topSenders))) ;;
   let topRules := top7 (Metrics.byRule m) in
   write (set_charts (draw rules (Series topRules))) ;;
   riskOverTime <- lift (forEach riskOverTime_step collective []) ;;
   write (set_charts (draw trend (Series (entries riskOverTime)))))%page.

(** *** updateAIMetrics *)

(** [e.ai_details?.f] *)
Definition sub_score (f : AiDetails -> option Q) (e : ScanRecord) : option Q :=
  match ai_details e with
  | Some d => f d
  | None => None
  end.

(** [e.ai_details?.f || e.score || 0] *)
Definition ai_input (f : AiDetails -> option Q) (e : ScanRecord) : Q :=
  or_zero (or_num (sub_score f e) (score e)).

(** The trend lines of [updateAIMetrics], on the [hy] array, with the
    difference taken exactly: the trend the code shows whenever the
    difference of its two doubles is exact. [Binary64.classify] below has
    the rounded difference. *)
Definition classify (hy : list Q) : Trend :=
  let sorted := slice_last 5 hy in
  if (2 <=? List.length sorted)%nat then
    let diff := nth (List.length sorted - 1) sorted 0 - nth 0 sorted 0 in
    if Qltb 1 diff then Rising
    else if Qltb diff (-1) then Falling
    else Stable
  else Stable.

Definition label_of (overall : Z) : RiskLabel :=
  if (overall <? 4)%Z then Safe
  else if (overall <? 7)%Z then Medium
  else HighRisk.

Definition updateAIMetrics (scanHistory : list ScanRecord) : M unit :=
  let zs := map (ai_input zero_shot) scanHistory in
  let tr := map (ai_input transformer) scanHistory in
  let hy := map (ai_input hybrid_score) scanHistory in
  let zsAvg := fmt (avg zs) in
  let trAvg := fmt (avg tr) in
  let hyAvg := fmt (avg hy) in
  let overall := Math_round hyAvg in
  write (set_ai zsAvg trAvg hyAvg overall (classify hy) (label_of overall)).

(** *** updateDashboard *)

Definition updateDashboard (scanHistory collective : list ScanRecord) : M unit :=
  (m <- lift (computeMetrics scanHistory) ;;
   write (set_summary (Metrics.total m) (Metrics.highPct m) (Metrics.quarantine m)) ;;
   let avgScore := avg (map score_of scanHistory) in
   write (set_threatIndex (fmt (avgScore * (31 # 10)))) ;;
   updateAIMetrics scanHistory ;;
   renderCharts scanHistory collective)%page.

(** *** The auto-refresh timer *)

(** The script's two variables and the page. *)
Record State := {
  scanHistory : list ScanRecord;
  collective : list ScanRecord;
  page : Page
}.

(** What [r.json()] gives: a rejection, or the parsed object with its two
    possibly absent arrays. *)
Inductive Body :=
| InvalidJson
| Parsed (scan_history collective_stats : option (list ScanRecord)).

(** What [fetch('/dashboard?json=1')] gives: a rejection (network error) or
    a response with its [ok] flag. *)
Inductive FetchOutcome :=
| Rejected
| Response (ok : bool) (body : Body).

Definition or_empty (a : option (list ScanRecord)) : list ScanRecord :=
  match a with
  | Some l => l
  | None => []
  end.

(** The body of the timer callback, from the point where [fetch] settles;
    [now] is [new Date().toLocaleString()]. *)
Definition autoRefresh (now : string) (o : FetchOutcome) (st : State) : State :=
  match o with
  | Rejected => st
  | Response false _ => st
  | Response true InvalidJson => st
  | Response true (Parsed sh cs) =>
      let scanHistory' := or_empty sh in
      let collective' := or_empty cs in
      let (p, r) := updateDashboard scanHistory' collective' (page st) in
      {| scanHistory := scanHistory';
         collective := collective';
         page := match r with
                 | Ok _ => set_lastRef ("Last refreshed: " ++ now) p
                 | TypeError => p
                 end |}
  end.

(** The timer and its callbacks in flight. The timer fires every 180 s
    whatever the state of earlier callbacks; a callback waits for its
    [fetch] and then runs to its end. The scheduler is idle when no callback
    is in flight. *)
Record Scheduler := {
  state : State;
  inflight : nat
}.

Inductive Event :=
| Tick
| Settle (now : string) (o : FetchOutcome).

Definition step (ev : Event) (s : Scheduler) : option Scheduler :=
  match ev with
  | Tick => Some {| state := state s; inflight := S (inflight s) |}
  | Settle now o =>
      match inflight s with
      | O => None
      | S n => Some {| state := autoRefresh now o (state s); inflight := n |}
      end
  end.

Fixpoint run (evs : list Event) (s : Scheduler) : option Scheduler :=
  match evs with
  | [] => Some s
  | ev :: r =>
      match step ev s with
      | Some s' => run r s'
      | None => None
      end
  end.

Definition idle (s : Scheduler) : Prop := inflight s = O.

(** A field the code calls [split] on is harmless when it is a string or
    falsy (absent, [null], [false], [0], the empty string). *)
Definition string_or_falsy (v : value) : bool :=
  match v with
  | Str _ => true
  | _ => negb (truthy v)
  end.

(** The records on which no [split] call can throw: in [scanHistory] both
    [timestamp] and [matched_rules] are split, in [collective] only
    [timestamp]. *)
Definition wf_local (e : ScanRecord) : bool :=
  string_or_falsy (timestamp e) && string_or_falsy (matched_rules e).

Definition wf_collective (r : ScanRecord) : bool :=
  string_or_falsy (timestamp r).

End Static.

(** ** The trend lines of [updateAIMetrics] on binary64 numbers *)

Module Binary64.
Import JS Static.

(** The array [hy] as the code holds it, an array of IEEE 754 binary64
    numbers, and the lines
    [const sorted = hy.slice(-5);
     if (sorted.length >= 2) {
       const diff = sorted[sorted.length-1] - sorted[0];
       if (diff > 1) trend = 'Rising'; else if (diff < -1) trend = 'Falling'; }]:
    the subtraction is that of binary64, rounded to nearest, and a
    comparison with NaN is false. *)
Definition classify (hy : list float) : Trend :=
  let sorted := slice_last 5 hy in
  if (2 <=? List.length sorted)%nat then
    let diff := (nth (List.length sorted - 1) sorted 0 - nth 0 sorted 0)%float in
    if (1 <? diff)%float then Rising
    else if (diff <? -1)%float then Falling
    else Stable
  else Stable.

(** The window's [last - first]. *)
Definition delta (w : list float) : float := (last w 0 - hd 0 w)%float.

End Binary64.

(** ** frontend/src/pages/Dashboard.js: the manual rescan *)

Module React.
Import JS.

(** The component state [data], [loading], [rescanLoading], and one
    [handleRescan] call's closure: its counter [polls] and whether its
    interval timer is armed. [pending] counts the timer callbacks waiting at
    [await fetchDashboardData()]; [requests] counts the calls of
    [fetchDashboardData] the timer callbacks have made. [polls] and the
    timer are locals of the call: the model follows one call, and a second
    call, with a counter and a timer of its own, is not part of it. *)
Record Dash := {
  data : option value;
  loading : bool;
  rescanLoading : bool;
  polls : nat;
  interval : bool;
  pending : nat;
  requests : nat
}.

(** How the [fetch] inside [fetchDashboardData] settles: a parsed body, or a
    failure (rejection, non-ok status, invalid JSON), which the function
    catches. *)
Inductive FetchResult :=
| Fetched (json : value)
| Failed.

(** [fetchDashboardData], from the point where its [fetch] settles:
    [setData(json)] on success, and [setLoading(false)] in any case. *)
Definition fetchDashboardData (o : FetchResult) (d : Dash) : Dash :=
  {| data := match o with
             | Fetched json => Some json
             | Failed => data d
             end;
     loading := false;
     rescanLoading := rescanLoading d;
     polls := polls d;
     interval := interval d;
     pending := pending d;
     requests := requests d |}.

(** [handleRescan] up to [setInterval]; [post_ok] tells whether the POST to
    [/rescan] passed ([fetch] resolved and [res.ok]). *)
Definition handleRescan (post_ok : bool) (d : Dash) : Dash :=
  if post_ok then
    {| data := data d; loading := loading d; rescanLoading := true;
       polls := 0; interval := true;
       pending := pending d; requests := requests d |}
  else
    {| data := data d; loading := loading d; rescanLoading := false;
       polls := polls d; interval := interval d;
       pending := pending d; requests := requests d |}.

(** The two halves of the timer callback
    [async () => { polls++; await fetchDashboardData();
                   if (polls >= 5) { clearInterval(interval); setRescanLoading(false); } }]:
    [Fire] is the timer firing (the synchronous part, up to the [await]);
    [Resume] is a waiting callback continuing after its fetch has settled. *)
Inductive Event :=
| Fire
| Resume (o : FetchResult).

Definition step (ev : Event) (d : Dash) : option Dash :=
  match ev with
  | Fire =>
      if interval d then
        Some {| data := data d; loading := loading d;
                rescanLoading := rescanLoading d;
                polls := S (polls d); interval := true;
                pending := S (pending d); requests := S (requests d) |}
      else None
  | Resume o =>
      match pending d with
      | O => None
      | S n =>
          let d' := fetchDashboardData o d in
          let stop := (5 <=? polls d')%nat in
          Some {| data := data d'; loading := loading d';
                  rescanLoading := if stop then false else rescanLoading d';
                  polls := polls d';
                  interval := if stop then false else interval d';
                  pending := n; requests := requests d' |}
      end
  end.

(** A schedule of events; [None] when an event of the schedule cannot
    happen (the timer is cleared, or no callback is waiting). *)
Fixpoint run (evs : list Event) (d : Dash) : option Dash :=
  match evs with
  | [] => Some d
  | ev :: r =>
      match step ev d with
      | Some d' => run r d'
      | None => None
      end
  end.

(** The component after mount, before any rescan. *)
Definition mounted (json : option value) : Dash :=
  {| data := json; loading := false; rescanLoading := false;
     polls := 0; interval := false; pending := 0; requests := 0 |}.

End React.

(** ** frontend/src/components/AIRiskCard.js and the value the page hands it *)

Module Card.
Import JS.

(** [Math.max], [Math.min] on two numbers. *)
Definition Math_max (a b : Q) : Q := if Qle_bool a b then b else a.
Definition Math_min (a b : Q) : Q := if Qle_bool a b then a else b.

(** [typeof threatIndex === "number" ? threatIndex : value || 0]; a prop is a
    number or is not passed. *)
Definition finalValue (value threatIndex : option Q) : Q :=
  match threatIndex with
  | Some t => t
  | None => or_zero value
  end.

(** [Math.min(Math.max(finalValue, 0), 100)] *)
Definition risk (value threatIndex : option Q) : Q :=
  Math_min (Math_max (finalValue value threatIndex) 0) 100.

(** [283 - (283 * risk) / 100], the dash offset of the ring. *)
Definition strokeDashoffset (value threatIndex : option Q) : Q :=
  283 - (283 * risk value threatIndex) / 100.

(** [Math.round(risk)], the percentage shown in the ring. *)
Definition shown (value threatIndex : option Q) : Z :=
  Math_round (risk value threatIndex).

(** Dashboard.js: [Math.round(data?.collective_stats?.threat_index ?? 0)],
    with [threat_index] a number or nullish. *)
Definition page_threatIndex (threat_index : option Q) : Z :=
  Math_round (match threat_index with Some t => t | None => 0 end).

(** [<AIRiskCard threatIndex={threatIndex} .../>] as the page renders it. *)
Definition page_card_shown (threat_index : option Q) : Z :=
  shown None (Some (inject_Z (page_threatIndex threat_index))).

End Card.

(** ** Vocabulary of the further properties *)

Module Derived.
Import JS Static.

(** The sum of the counts of a counter object. *)
Definition sum_counts (o : counts) : nat := list_sum (map snd o).

(** Whether a character occurs in a string, and whether a string begins or
    ends with white space. *)
Fixpoint contains (c : ascii) (s : string) : bool :=
  match s with
  | EmptyString => false
  | String c' r => Ascii.eqb c' c || contains c r
  end.

Definition starts_space (s : string) : bool :=
  match skip_space s with
  | Some _ => true
  | None => false
  end.

(** Some white-space character is the end of the string. *)
Fixpoint ends_space (s : string) : bool :=
  match s with
  | EmptyString => false
  | String _ r =>
      match skip_space s with
      | Some EmptyString => true
      | _ => ends_space r
      end
  end.

(** The day a record is counted under in [perDay] when no [split] throws:
    the part of a string timestamp before its first [T]; empty when the
    timestamp is not a string. *)
Definition day_of (e : ScanRecord) : string :=
  match timestamp e with
  | Str s => hd "" (split "T"%char s)
  | _ => ""
  end.

Definition days (scanHistory : list ScanRecord) : list string :=
  filter (fun d => negb (d =? "")) (map day_of scanHistory).

(** The collective records the [riskOverTime] pass counts, and the keys
    it counts them under. *)
Definition risky_dated (r : ScanRecord) : bool :=
  truthy (timestamp r)
  && (is_string (risk_level r) "High" || is_string (risk_level r) "Suspicious").

Definition risky_days (collective : list ScanRecord) : list string :=
  map day_of (filter risky_dated collective).

(** The keys of a sequence, each once, in the order of their first
    occurrence. *)
Definition first_occurrences (ks : list string) : list string :=
  rev (nodup string_dec (rev ks)).

(** Two pages that show the same thing: the same text in every element and
    the same data in every chart. *)
Definition same_view (a b : Page) : Prop :=
  totalScansEl a = totalScansEl b
  /\ highRiskPctEl a = highRiskPctEl b
  /\ quarantineCountEl a = quarantineCountEl b
  /\ threatIndexEl a = threatIndexEl b
  /\ aiZSAvg a = aiZSAvg b
  /\ aiTRAvg a = aiTRAvg b
  /\ aiHYAvg a = aiHYAvg b
  /\ aiOverallScoreEl a = aiOverallScoreEl b
  /\ aiTrend a = aiTrend b
  /\ aiRiskLabelEl a = aiRiskLabelEl b
  /\ (forall id, charts a id = charts b id).

(** The fetches that settle in a schedule of the auto-refresh timer, in
    order, and the ones among them that deliver new records. *)
Definition settles (evs : list Static.Event) : list (string * FetchOutcome) :=
  flat_map (fun ev => match ev with
                      | Settle now o => [(now, o)]
                      | Tick => []
                      end) evs.

Definition delivers (o : FetchOutcome) : bool :=
  match o with
  | Response true (Parsed _ _) => true
  | _ => false
  end.

Definition apply_settles (l : list (string * FetchOutcome)) (st : State) : State :=
  fold_left (fun st x => autoRefresh (fst x) (snd x) st) l st.

(** The body of the last successful [fetchDashboardData] of a schedule of
    the rescan timer. *)
Fixpoint last_fetched (evs : list React.Event) (acc : option value) : option value :=
  match evs with
  | [] => acc
  | React.Resume (React.Fetched json) :: r => last_fetched r (Some json)
  | _ :: r => last_fetched r acc
  end.

(** A rule token as [computeMetrics] counts it: not empty, without a comma,
    and without white space at either end. *)
Definition clean_token (k : string) : Prop :=
  k <> "" /\ contains ","%char k = false
  /\ starts_space k = false /\ ends_space k = false.

(** The page when [updateDashboard] has written everything but the trend
    chart: the cards, the AI panel and the first five charts of
    [renderCharts], the six charts having been destroyed first. *)
Definition all_but_trend (sh coll : list ScanRecord) (m : Metrics.t) (p : Page) : Page :=
  let p1 := set_summary (Metrics.total m) (Metrics.highPct m) (Metrics.quarantine m) p in
  let p2 := set_threatIndex (fmt (avg (map score_of sh) * (31 # 10))) p1 in
  let p3 := fst (updateAIMetrics sh p2) in
  let p4 := set_charts (fun c =>
              destroy trend (destroy rules (destroy senders
                (destroy threats (destroy scans (destroy risk c)))))) p3 in
  let p5 := set_charts (draw risk (Doughnut (Metrics.high m) (Metrics.med m)
                                            (Metrics.low m))) p4 in
  let p6 := set_charts (draw scans (Series (entries (Metrics.perDay m)))) p5 in
  let p7 := set_charts (draw threats (Series (top7 (Metrics.bySender m)))) p6 in
  let p8 := set_charts (draw senders (Series (top7 (collSenders_of coll)))) p7 in
  set_charts (draw rules (Series (top7 (Metrics.byRule m)))) p8.

(** The number of timer firings of a schedule of the auto refresh. *)
Definition ticks (evs : list Static.Event) : nat :=
  List.length (filter (fun ev => match ev with Tick => true | Settle _ _ => false end) evs).

(** What holds of the closure of one [handleRescan] call, the first on the
    page, at every point of every schedule of its timer: one fetch per
    firing, no more callbacks waiting than firings, the button disabled
    exactly while the timer is armed, and the timer cleared only from the
    fifth poll on. *)
Definition rescan_inv (d : React.Dash) : Prop :=
  React.requests d = React.polls d
  /\ (React.pending d <= React.polls d)%nat
  /\ React.rescanLoading d = React.interval d
  /\ (React.interval d = false -> (5 <= React.polls d)%nat).

(** Whether some fetch of the schedule has settled. *)
Definition has_resume (evs : list React.Event) : bool :=
  existsb (fun ev => match ev with React.Resume _ => true | React.Fire => false end) evs.

End Derived.

(** ** Sample inputs *)

Module Samples.
Import JS Static.

(** A page on which nothing has been written yet. *)
Definition blank : Page :=
  {| totalScansEl := 0; highRiskPctEl := 0; quarantineCountEl := 0;
     threatIndexEl := 0; aiZSAvg := 0; aiTRAvg := 0; aiHYAvg := 0;
     aiOverallScoreEl := 0; aiTrend := Stable; aiRiskLabelEl := Safe;
     charts := fun _ => None; lastRefEl := "" |}.

(** A record with every field of the data model filled in, without
    [ai_details]. *)
Definition scan (from : string) (sc : Q) (ts rules : string) : ScanRecord :=
  {| sender := Some from; email_from := None; score := Some sc;
     risk_level := Str "High"; timestamp := Str ts;
     matched_rules := Str rules; quarantine := Bool false;
     ai_details := None |}.

(** [{}]: a record with no field at all. *)
Definition bare : ScanRecord :=
  {| sender := None; email_from := None; score := None;
     risk_level := Undefined; timestamp := Undefined;
     matched_rules := Undefined; quarantine := Undefined;
     ai_details := None |}.

(** A record whose zero-shot and hybrid sub-scores are 0 and whose score
    is 8. *)
Definition zero_subscore_record : ScanRecord :=
  {| sender := Some "a@example.org"; email_from := None; score := Some 8;
     risk_level := Str "High"; timestamp := Str "2025-01-01T00:00:00";
     matched_rules := Str ""; quarantine := Bool false;
     ai_details := Some {| zero_shot := Some 0; transformer := Some 3;
                           hybrid_score := Some 0 |} |}.

(** A record whose [matched_rules] is the JSON array [["spf_fail"]]. *)
Definition rules_as_array : ScanRecord :=
  {| sender := Some "a@example.org"; email_from := None; score := Some 8;
     risk_level := Str "High"; timestamp := Str "2025-01-01T00:00:00";
     matched_rules := Arr [Str "spf_fail"]; quarantine := Bool false;
     ai_details := None |}.

(** A record without [sender] but with [email_from]. *)
Definition from_only : ScanRecord :=
  {| sender := None; email_from := Some "b@example.org"; score := Some 2;
     risk_level := Str "Low"; timestamp := Str "2025-01-02T00:00:00";
     matched_rules := Str ""; quarantine := Bool false;
     ai_details := None |}.

End Samples.

(** * Properties *)

Import JS Static Samples.

(** ** Comparisons of rationals *)

Lemma Qltb_lt (a b : Q) : Qltb a b = true <-> a < b.
Proof.
  unfold Qltb. rewrite negb_true_iff. split; intro H.
  - apply Qnot_le_lt. intro Hle. apply Qle_bool_iff in Hle. congruence.
  - destruct (Qle_bool b a) eqn:E; [|reflexivity].
    apply Qle_bool_iff in E. lra.
Qed.

Lemma Qltb_ge (a b : Q) : Qltb a b = false <-> b <= a.
Proof.
  unfold Qltb. rewrite negb_false_iff. apply Qle_bool_iff.
Qed.

Lemma is_high_iff (s : Q) : is_high s = true <-> 7 <= s.
Proof. apply Qle_bool_iff. Qed.

Lemma is_med_iff (s : Q) : is_med s = true <-> 4 <= s /\ s < 7.
Proof.
  unfold is_med. rewrite andb_true_iff, Qle_bool_iff, Qltb_lt. tauto.
Qed.

Lemma is_low_iff (s : Q) : is_low s = true <-> s < 4.
Proof. apply Qltb_lt. Qed.

(** Every score is in exactly one bucket. *)
Lemma bucket_exclusive (s : Q) :
  (is_high s, is_med s, is_low s) = (true, false, false)
  \/ (is_high s, is_med s, is_low s) = (false, true, false)
  \/ (is_high s, is_med s, is_low s) = (false, false, true).
Proof.
  destruct (is_high s) eqn:H, (is_med s) eqn:M, (is_low s) eqn:L; auto;
    exfalso;
    repeat match goal with
    | E : is_high _ = true |- _ => apply is_high_iff in E
    | E : is_med _ = true |- _ => apply is_med_iff in E
    | E : is_low _ = true |- _ => apply is_low_iff in E
    end; try lra.
  unfold is_high, is_med, is_low in *.
  apply andb_false_iff in M.
  assert (Hh : ~ 7 <= s) by (rewrite <- Qle_bool_iff; congruence).
  apply Qltb_ge in L.
  destruct M as [M | M].
  - assert (~ 4 <= s) by (rewrite <- Qle_bool_iff; congruence). lra.
  - apply Qltb_ge in M. lra.
Qed.

Lemma or_zero_absent : or_zero None = 0.
Proof. reflexivity. Qed.

Lemma or_zero_eq (a : option Q) (q : Q) : a = Some q -> or_zero a == q.
Proof.
  intros ->. simpl. destruct (Qeq_bool q 0) eqn:E; [|reflexivity].
  apply Qeq_bool_iff in E. symmetry. exact E.
Qed.

Lemma Qle_bool_proper (a x y : Q) : x == y -> Qle_bool a x = Qle_bool a y.
Proof.
  intro E. destruct (Qle_bool a x) eqn:X, (Qle_bool a y) eqn:Y; auto.
  - apply Qle_bool_iff in X. rewrite E in X. apply Qle_bool_iff in X. congruence.
  - apply Qle_bool_iff in Y. rewrite <- E in Y. apply Qle_bool_iff in Y. congruence.
Qed.

(** ** The risk histogram *)

Lemma filter_length_elt {A} (f : A -> bool) (l1 l2 : list A) (x : A) :
  List.length (filter f (l1 ++ x :: l2)) =
  if f x then S (List.length (filter f (l1 ++ l2)))
  else List.length (filter f (l1 ++ l2)).
Proof.
  rewrite !filter_app, !length_app. simpl.
  destruct (f x); simpl; lia.
Qed.

Lemma histogram_elt (l1 l2 : list ScanRecord) (e : ScanRecord) :
  histogram (l1 ++ e :: l2) = add_bucket (score_of e) (histogram (l1 ++ l2)).
Proof.
  unfold histogram, add_bucket.
  rewrite !map_app. simpl. rewrite !filter_length_elt. reflexivity.
Qed.

Lemma histogram_sum (sh : list ScanRecord) :
  let '(hi, me, lo) := histogram sh in (hi + me + lo = List.length sh)%nat.
Proof.
  unfold histogram. induction sh as [|e sh IH]; simpl; [reflexivity|].
  destruct (bucket_exclusive (score_of e)) as [H | [H | H]];
    injection H as -> -> ->; simpl; lia.
Qed.

Lemma computeMetrics_histogram (sh : list ScanRecord) (m : Metrics.t) :
  computeMetrics sh = Ok m ->
  (Metrics.high m, Metrics.med m, Metrics.low m) = histogram sh
  /\ Metrics.total m = List.length sh.
Proof.
  unfold computeMetrics, histogram.
  destruct (forEach perDay_step sh []); simpl; [|discriminate].
  destruct (forEach byRule_step sh []); simpl; [|discriminate].
  intros [= <-]. simpl. rewrite length_map. auto.
Qed.

(** C4: the histogram of [computeMetrics] partitions the records by
    [e.score || 0]: High is [score >= 7], Medium [4 <= score < 7], Low
    [score < 4]; an absent score counts as 0 (Low); a record with score 7
    adds one to High and nothing to Medium, one with score 4 adds one to
    Medium and nothing to Low; the three counts add up to the number of
    records, which is [total]. *)
Theorem C4_histogram_partition (sh : list ScanRecord) :
  (* the buckets and their bounds *)
  histogram sh =
    (List.length (filter (fun e => is_high (score_of e)) sh),
     List.length (filter (fun e => is_med (score_of e)) sh),
     List.length (filter (fun e => is_low (score_of e)) sh))
  /\ (forall s, (is_high s = true <-> 7 <= s)
             /\ (is_med s = true <-> 4 <= s /\ s < 7)
             /\ (is_low s = true <-> s < 4))
  (* every record falls in exactly one bucket *)
  /\ (forall e, (is_high (score_of e), is_med (score_of e), is_low (score_of e))
                 = (true, false, false)
             \/ (is_high (score_of e), is_med (score_of e), is_low (score_of e))
                 = (false, true, false)
             \/ (is_high (score_of e), is_med (score_of e), is_low (score_of e))
                 = (false, false, true))
  (* the counts add up to totalScans *)
  /\ (let '(hi, me, lo) := histogram sh in (hi + me + lo = List.length sh)%nat)
  /\ (forall m, computeMetrics sh = Ok m ->
        (Metrics.high m, Metrics.med m, Metrics.low m) = histogram sh
        /\ Metrics.total m = List.length sh
        /\ (Metrics.high m + Metrics.med m + Metrics.low m = Metrics.total m)%nat)
  (* one more record, anywhere in the collection *)
  /\ (forall l1 l2 e, sh = l1 ++ e :: l2 ->
        let '(hi, me, lo) := histogram (l1 ++ l2) in
        (score e = None -> histogram sh = (hi, me, S lo))
        /\ (forall q, score e = Some q -> q == 7 -> histogram sh = (S hi, me, lo))
        /\ (forall q, score e = Some q -> q == 4 -> histogram sh = (hi, S me, lo))).
Proof.
  split; [|split; [|split; [|split; [|split]]]].
  - unfold histogram. rewrite !filter_map_swap, !length_map. reflexivity.
  - intro s. split; [apply is_high_iff | split; [apply is_med_iff | apply is_low_iff]].
  - intro e. apply bucket_exclusive.
  - apply histogram_sum.
  - intros m Hm. destruct (computeMetrics_histogram sh m Hm) as [Hh Ht].
    split; [exact Hh | split; [exact Ht|]].
    pose proof (histogram_sum sh) as Hs. rewrite <- Hh in Hs. lia.
  - intros l1 l2 e ->. rewrite histogram_elt.
    destruct (histogram (l1 ++ l2)) as [[hi me] lo].
    assert (Hb : forall q, score_of e == q ->
              add_bucket (score_of e) (hi, me, lo) =
              ((if is_high q then S hi else hi),
               (if is_med q then S me else me),
               (if is_low q then S lo else lo))).
    { intros q Hq. unfold add_bucket, is_high, is_med, is_low, Qltb.
      rewrite !(Qle_bool_proper _ _ _ Hq).
      reflexivity. }
    split; [|split].
    + intro Hs. unfold score_of. rewrite Hs. reflexivity.
    + intros q Hs Hq.
      rewrite (Hb 7) by (rewrite <- Hq; apply or_zero_eq; exact Hs). reflexivity.
    + intros q Hs Hq.
      rewrite (Hb 4) by (rewrite <- Hq; apply or_zero_eq; exact Hs). reflexivity.
Qed.

(** ** The trend classifier *)

Lemma nth_pred_length_last {A} (l : list A) (d : A) :
  nth (List.length l - 1) l d = last l d.
Proof.
  induction l as [|a l IH]; [reflexivity|].
  destruct l as [|b l]; [reflexivity|].
  simpl in *. rewrite Nat.sub_0_r in IH. exact IH.
Qed.

Lemma nth_0_hd {A} (l : list A) (d : A) : nth 0 l d = hd d l.
Proof. destruct l; reflexivity. Qed.


(** *** On binary64 numbers *)

#[local] Set Warnings "-inexact-float".


Lemma classify64_delta (hy : list float) :
  Binary64.classify hy =
    if (2 <=? List.length (slice_last 5 hy))%nat then
      if (1 <? Binary64.delta (slice_last 5 hy))%float then Rising
      else if (Binary64.delta (slice_last 5 hy) <? -1)%float then Falling
      else Stable
    else Stable.
Proof.
  unfold Binary64.classify, Binary64.delta.
  rewrite nth_pred_length_last, nth_0_hd. reflexivity.
Qed.


(** ** The inputs of the AI averages *)

(** C2 as stated fails: a record whose [zero_shot] sub-score is present and
    equal to 0, and whose score is 8, contributes 8 to the zero-shot
    average, not 0. *)
Lemma C2_zero_subscore_counterexample :
  sub_score zero_shot zero_subscore_record = Some 0
  /\ score zero_subscore_record = Some 8
  /\ ai_input zero_shot zero_subscore_record = 8
  /\ ~ ai_input zero_shot zero_subscore_record == 0
  /\ aiZSAvg (fst (updateAIMetrics [zero_subscore_record] blank)) == 8.
Proof.
  repeat split; try reflexivity.
  intro H. vm_compute in H. discriminate.
Qed.

(** C2, amended: each of the three inputs is the record's sub-score when
    that sub-score is present and not 0; when the sub-score is missing or 0
    it is the record's score, if that is present and not 0; and it is 0
    otherwise. The three averages are taken over these inputs. *)
Theorem C2_ai_inputs (f : AiDetails -> option Q) (e : ScanRecord) :
  (forall q, sub_score f e = Some q -> ~ q == 0 -> ai_input f e = q)
  /\ (forall s, (sub_score f e = None \/ exists q, sub_score f e = Some q /\ q == 0) ->
        score e = Some s -> ~ s == 0 -> ai_input f e = s)
  /\ ((sub_score f e = None \/ exists q, sub_score f e = Some q /\ q == 0) ->
      (score e = None \/ exists s, score e = Some s /\ s == 0) ->
      ai_input f e = 0)
  /\ (forall sh p,
        aiZSAvg (fst (updateAIMetrics sh p)) = fmt (avg (map (ai_input zero_shot) sh))
        /\ aiTRAvg (fst (updateAIMetrics sh p)) = fmt (avg (map (ai_input transformer) sh))
        /\ aiHYAvg (fst (updateAIMetrics sh p)) = fmt (avg (map (ai_input hybrid_score) sh))).
Proof.
  unfold ai_input, or_num, truthy_num.
  assert (Hnz : forall q, ~ q == 0 -> Qeq_bool q 0 = false).
  { intros q Hq. destruct (Qeq_bool q 0) eqn:E; [|reflexivity].
    apply Qeq_bool_iff in E. contradiction. }
  assert (Hz : forall q, q == 0 -> Qeq_bool q 0 = true).
  { intros q Hq. apply Qeq_bool_iff. exact Hq. }
  split; [|split; [|split]].
  - intros q -> Hq. simpl. rewrite (Hnz q Hq). simpl. rewrite (Hnz q Hq). reflexivity.
  - intros s [-> | [q [-> Hq]]] -> Hs; simpl.
    + rewrite (Hnz s Hs). reflexivity.
    + rewrite (Hz q Hq). simpl. rewrite (Hnz s Hs). reflexivity.
  - intros [-> | [q [-> Hq]]] [-> | [s [-> Hs]]]; simpl;
      rewrite ?(Hz q Hq); simpl; rewrite ?(Hz s Hs); reflexivity.
  - intros sh p. repeat split; reflexivity.
Qed.

(** ** Empty input *)

(** C5: with no records at all, [updateDashboard] completes, and shows 0
    scans, 0 percent high risk, threat index 0, the label Safe and the trend
    Stable; [avg] of the empty array is 0. *)
Theorem C5_empty_input (p : Page) :
  avg [] = 0
  /\ computeMetrics [] =
       Ok {| Metrics.high := 0; Metrics.med := 0; Metrics.low := 0;
             Metrics.perDay := []; Metrics.bySender := []; Metrics.byRule := [];
             Metrics.quarantine := 0; Metrics.total := 0; Metrics.highPct := 0 |}
  /\ snd (updateDashboard [] [] p) = Ok tt
  /\ totalScansEl (fst (updateDashboard [] [] p)) = 0%nat
  /\ highRiskPctEl (fst (updateDashboard [] [] p)) = 0
  /\ threatIndexEl (fst (updateDashboard [] [] p)) == 0
  /\ aiZSAvg (fst (updateDashboard [] [] p)) == 0
  /\ aiTRAvg (fst (updateDashboard [] [] p)) == 0
  /\ aiHYAvg (fst (updateDashboard [] [] p)) == 0
  /\ aiOverallScoreEl (fst (updateDashboard [] [] p)) = 0%Z
  /\ aiRiskLabelEl (fst (updateDashboard [] [] p)) = Safe
  /\ aiTrend (fst (updateDashboard [] [] p)) = Stable.
Proof.
  repeat split; reflexivity.
Qed.

(** ** The auto-refresh timer *)

Lemma autoRefresh_failed (now : string) (st : State) (body : Body) :
  autoRefresh now Rejected st = st
  /\ autoRefresh now (Response false body) st = st
  /\ autoRefresh now (Response true InvalidJson) st = st.
Proof. repeat split; reflexivity. Qed.

(** A refresh that succeeds does replace the records and the page. *)
Example autoRefresh_success_publishes :
  let e := scan "a@example.org" 8 "2025-01-01T00:00:00" "spf_fail" in
  let st := autoRefresh "now" (Response true (Parsed (Some [e]) None))
              {| scanHistory := []; collective := []; page := blank |} in
  scanHistory st = [e]
  /\ totalScansEl (page st) = 1%nat
  /\ highRiskPctEl (page st) == 100
  /\ aiRiskLabelEl (page st) = HighRisk
  /\ lastRefEl (page st) = "Last refreshed: now".
Proof. repeat split; reflexivity. Qed.

(** C8: when the refresh fetch fails (the response is not ok, or [fetch]
    throws), the timer callback ends without touching [scanHistory],
    [collective] or anything on the page: after the timer fires and the
    fetch fails, the scheduler is exactly as before, idle if it was idle. *)
Theorem C8_failed_refresh_keeps_state (now : string) (s : Scheduler) (body : Body) :
  run [Tick; Settle now Rejected] s = Some s
  /\ run [Tick; Settle now (Response false body)] s = Some s
  /\ (forall o, o = Rejected \/ o = Response false body ->
        autoRefresh now o (state s) = state s
        /\ exists s', run [Tick; Settle now o] s = Some s'
                      /\ scanHistory (state s') = scanHistory (state s)
                      /\ collective (state s') = collective (state s)
                      /\ page (state s') = page (state s)
                      /\ (idle s -> idle s')).
Proof.
  destruct s as [st n]. split; [reflexivity | split; [reflexivity|]].
  intros o [-> | ->]; (split; [reflexivity|]);
    eexists; (split; [reflexivity|]); simpl; auto.
Qed.

(** ** The manual rescan of the React dashboard *)

(** After [handleRescan] has armed its timer: if every callback's fetch
    settles before the timer fires again, five fetches are made whatever
    they return, the fifth callback clears the timer and the loading flag,
    and the timer cannot fire a sixth time. *)
Lemma rescan_in_sequence (json : option value) (o1 o2 o3 o4 o5 : React.FetchResult) :
  let d0 := React.handleRescan true (React.mounted json) in
  exists d,
    React.run [React.Fire; React.Resume o1; React.Fire; React.Resume o2;
               React.Fire; React.Resume o3; React.Fire; React.Resume o4;
               React.Fire; React.Resume o5] d0 = Some d
    /\ React.requests d = 5%nat
    /\ React.interval d = false
    /\ React.rescanLoading d = false
    /\ React.pending d = 0%nat
    /\ React.step React.Fire d = None.
Proof.
  intro d0. eexists. split; [vm_compute; reflexivity|]. repeat split; reflexivity.
Qed.

(** In such a schedule a sixth poll cannot happen. *)
Lemma rescan_in_sequence_stops (json : option value) (os : list React.FetchResult) :
  (5 < List.length os)%nat ->
  React.run (flat_map (fun o => [React.Fire; React.Resume o]) os)
            (React.handleRescan true (React.mounted json)) = None.
Proof.
  destruct os as [|o1 [|o2 [|o3 [|o4 [|o5 [|o6 os]]]]]];
    cbn [List.length]; try lia.
  intros _. cbn [flat_map app].
  generalize (flat_map (fun o => [React.Fire; React.Resume o]) os). intro rest.
  vm_compute. reflexivity.
Qed.

(** When the POST to [/rescan] fails, no timer is armed and nothing is
    polled. *)
Lemma rescan_post_failed (json : option value) :
  let d0 := React.handleRescan false (React.mounted json) in
  React.rescanLoading d0 = false
  /\ React.interval d0 = false
  /\ React.step React.Fire d0 = None.
Proof. repeat split; reflexivity. Qed.

(** The timer stays armed as long as no callback has resumed since [polls]
    reached 5: [n] firings in a row make [n] fetches. *)
Lemma rescan_fires_unbounded (n : nat) (d : React.Dash) :
  React.interval d = true ->
  exists d', React.run (repeat React.Fire n) d = Some d'
             /\ React.requests d' = (React.requests d + n)%nat
             /\ React.polls d' = (React.polls d + n)%nat
             /\ React.interval d' = true.
Proof.
  revert d. induction n as [|n IH]; intros d Hd.
  - exists d. simpl. repeat split; auto.
  - cbn [repeat React.run]. unfold React.step. rewrite Hd.
    match goal with
    | |- context [React.run _ ?x] =>
        destruct (IH x eq_refl) as [d' [Hr [Hq [Hp Hi]]]]
    end.
    exists d'. rewrite Hr. simpl in *. repeat split; auto; lia.
Qed.

(** C9 at the failing schedule: four polls settle in time, the fifth fetch
    is still pending when the timer fires again two seconds later; the
    callback polls a sixth time ([polls] is 6, six fetches issued) and the
    timer is still armed. *)
Theorem C9_late_fifth_fetch_sixth_poll :
  let d0 := React.handleRescan true (React.mounted None) in
  exists d,
    React.run [React.Fire; React.Resume React.Failed;
               React.Fire; React.Resume React.Failed;
               React.Fire; React.Resume React.Failed;
               React.Fire; React.Resume React.Failed;
               React.Fire; React.Fire] d0 = Some d
    /\ React.requests d = 6%nat
    /\ React.polls d = 6%nat
    /\ React.interval d = true
    /\ React.rescanLoading d = true.
Proof.
  simpl. eexists. split; [reflexivity|]. repeat split; reflexivity.
Qed.

(** ** Where the rules ranking comes from *)

Lemma renderCharts_rules (sh coll : list ScanRecord) (p : Page) :
  charts (fst (renderCharts sh coll p)) rules =
    match computeMetrics sh with
    | Ok m => Some (Series (top7 (Metrics.byRule m)))
    | TypeError => charts p rules
    end.
Proof.
  unfold renderCharts, bindM, lift, write.
  destruct (computeMetrics sh) as [m|]; [|reflexivity].
  destruct (forEach riskOverTime_step coll []); reflexivity.
Qed.

Lemma renderCharts_senders (sh coll : list ScanRecord) (p : Page) :
  charts (fst (renderCharts sh coll p)) senders =
    match computeMetrics sh with
    | Ok m => Some (Series (top7 (collSenders_of coll)))
    | TypeError => charts p senders
    end
  /\ charts (fst (renderCharts sh coll p)) threats =
    match computeMetrics sh with
    | Ok m => Some (Series (top7 (Metrics.bySender m)))
    | TypeError => charts p threats
    end.
Proof.
  unfold renderCharts, bindM, lift, write.
  destruct (computeMetrics sh) as [m|]; [|split; reflexivity].
  destruct (forEach riskOverTime_step coll []); split; reflexivity.
Qed.

(** C1 on the code: the rules ranking drawn by [renderCharts] is the top 7
    of [byRule], which [computeMetrics] counts over [scanHistory], the local
    records; [collective] has no part in it. A rule matched only by a local
    record is ranked, a rule matched only by a collective record is not; a
    count is the number of tokens met, so a record that lists a rule twice
    counts twice. *)
Theorem C1_topRules_from_local_records :
  (forall sh coll coll' p,
     charts (fst (renderCharts sh coll p)) rules
     = charts (fst (renderCharts sh coll' p)) rules)
  /\ (forall sh coll p m, computeMetrics sh = Ok m ->
        charts (fst (renderCharts sh coll p)) rules
        = Some (Series (top7 (Metrics.byRule m))))
  /\ (let e := scan "a@example.org" 8 "2025-01-01T00:00:00" "spf_fail" in
      forall p,
        charts (fst (renderCharts [e] [] p)) rules = Some (Series [("spf_fail", 1%nat)])
        /\ charts (fst (renderCharts [] [e] p)) rules = Some (Series []))
  /\ (let e := scan "a@example.org" 8 "2025-01-01T00:00:00" "spf_fail, spf_fail" in
      forall p,
        charts (fst (renderCharts [e] [] p)) rules = Some (Series [("spf_fail", 2%nat)])).
Proof.
  split; [|split; [|split]].
  - intros. rewrite !renderCharts_rules. reflexivity.
  - intros sh coll p m Hm. rewrite renderCharts_rules, Hm. reflexivity.
  - intros e p. split; reflexivity.
  - intros e p. reflexivity.
Qed.

(** ** Records with missing or wrong-typed fields *)

Lemma forEach_app {A S} (f : A -> S -> result S) (l1 l2 : list A) (s : S) :
  forEach f (l1 ++ l2) s = bind (forEach f l1 s) (forEach f l2).
Proof.
  revert s. induction l1 as [|x l1 IH]; intro s; simpl; [reflexivity|].
  destruct (f x s); simpl; [apply IH | reflexivity].
Qed.

Lemma forEach_total {A S} (f : A -> S -> result S) (l : list A) :
  Forall (fun x => forall s, exists s', f x s = Ok s') l ->
  forall s, exists s', forEach f l s = Ok s'.
Proof.
  induction 1 as [|x l Hx _ IH]; intro s; simpl.
  - exists s. reflexivity.
  - destruct (Hx s) as [s1 ->]. simpl. apply IH.
Qed.

(** A step that leaves the object alone can be dropped from the pass. *)
Lemma forEach_skip {A S} (f : A -> S -> result S) (l1 l2 : list A) (x : A) (s : S) :
  (forall s', f x s' = Ok s') ->
  forEach f (l1 ++ x :: l2) s = forEach f (l1 ++ l2) s.
Proof.
  intro Hx. rewrite !forEach_app. simpl.
  destruct (forEach f l1 s) as [s1|]; simpl; [|reflexivity].
  rewrite Hx. reflexivity.
Qed.

Lemma fold_left_skip {A S} (f : S -> A -> S) (l1 l2 : list A) (x : A) (s : S) :
  (forall s', f s' x = s') ->
  fold_left f (l1 ++ x :: l2) s = fold_left f (l1 ++ l2) s.
Proof.
  intro Hx. rewrite !fold_left_app. simpl. rewrite Hx. reflexivity.
Qed.

Lemma or_else_split_ok (v : value) (sep : ascii) :
  string_or_falsy v = true ->
  exists parts, call_split (or_else v (Str "")) sep = Ok parts.
Proof.
  unfold or_else. intro H.
  destruct v as [ | | b | q | s | items | fields ]; simpl in *;
    try discriminate; try (eexists; reflexivity).
  - destruct b; simpl in *; [discriminate | eexists; reflexivity].
  - destruct (Qeq_bool q 0); simpl in *; [eexists; reflexivity | discriminate].
  - destruct (s =? ""); simpl; eexists; reflexivity.
Qed.

Lemma date_of_falsy (v : value) : truthy v = false -> date_of v = Ok "".
Proof.
  intro H. unfold date_of, or_else. rewrite H. reflexivity.
Qed.

Lemma perDay_step_falsy (e : ScanRecord) (o : counts) :
  truthy (timestamp e) = false -> perDay_step e o = Ok o.
Proof.
  intro H. unfold perDay_step. rewrite (date_of_falsy _ H). reflexivity.
Qed.

Lemma perDay_step_ok (e : ScanRecord) (o : counts) :
  string_or_falsy (timestamp e) = true -> exists o', perDay_step e o = Ok o'.
Proof.
  intro H. unfold perDay_step, date_of.
  destruct (or_else_split_ok _ "T"%char H) as [parts ->]. simpl.
  eexists; reflexivity.
Qed.

Lemma byRule_step_ok (e : ScanRecord) (o : counts) :
  string_or_falsy (matched_rules e) = true -> exists o', byRule_step e o = Ok o'.
Proof.
  intro H. unfold byRule_step, rules_of.
  destruct (or_else_split_ok _ ","%char H) as [parts ->]. simpl.
  eexists; reflexivity.
Qed.

Lemma riskOverTime_step_ok (r : ScanRecord) (o : counts) :
  string_or_falsy (timestamp r) = true -> exists o', riskOverTime_step r o = Ok o'.
Proof.
  intro H. unfold riskOverTime_step.
  destruct (truthy (timestamp r)) eqn:T; simpl; [|eexists; reflexivity].
  destruct (timestamp r) as [ | | b | q | s | items | fields ]; simpl in *;
    try discriminate; try (rewrite T in H; discriminate).
  eexists; reflexivity.
Qed.

Lemma computeMetrics_ok (sh : list ScanRecord) :
  Forall (fun e => wf_local e = true) sh ->
  exists m, computeMetrics sh = Ok m.
Proof.
  intro H. unfold computeMetrics.
  destruct (forEach_total perDay_step sh) with (s := @nil (string * nat)) as [pd ->].
  { eapply Forall_impl; [|exact H]. intros e He s.
    apply perDay_step_ok. unfold wf_local in He.
    apply andb_true_iff in He. tauto. }
  destruct (forEach_total byRule_step sh) with (s := @nil (string * nat)) as [br ->].
  { eapply Forall_impl; [|exact H]. intros e He s.
    apply byRule_step_ok. unfold wf_local in He.
    apply andb_true_iff in He. tauto. }
  simpl. eexists; reflexivity.
Qed.

Lemma updateDashboard_ok (sh coll : list ScanRecord) (p : Page) :
  Forall (fun e => wf_local e = true) sh ->
  Forall (fun r => wf_collective r = true) coll ->
  snd (updateDashboard sh coll p) = Ok tt.
Proof.
  intros Hs Hc.
  destruct (computeMetrics_ok sh Hs) as [m Hm].
  destruct (forEach_total riskOverTime_step coll) with (s := @nil (string * nat))
    as [rt Hrt].
  { eapply Forall_impl; [|exact Hc]. intros r Hr s.
    apply riskOverTime_step_ok. exact Hr. }
  unfold updateDashboard, renderCharts, updateAIMetrics, bindM, lift, write.
  rewrite Hm, Hrt. reflexivity.
Qed.

(** Conversely, a pass that completes has met only values it can split. *)
Lemma forEach_inv {A S} (f : A -> S -> result S) (P : A -> Prop) (l : list A) :
  (forall x s s', f x s = Ok s' -> P x) ->
  forall s s', forEach f l s = Ok s' -> Forall P l.
Proof.
  intro Hf. induction l as [|x l IH]; intros s s' H; [constructor|].
  simpl in H. destruct (f x s) as [s1|] eqn:E; simpl in H; [|discriminate].
  constructor; [exact (Hf x s s1 E) | exact (IH s1 s' H)].
Qed.

Lemma or_else_split_inv (v : value) (sep : ascii) (parts : list string) :
  call_split (or_else v (Str "")) sep = Ok parts -> string_or_falsy v = true.
Proof.
  unfold or_else.
  destruct v as [ | | b | q | s | items | fields ]; simpl; try reflexivity;
    try discriminate.
  - destruct b; simpl; [discriminate | reflexivity].
  - destruct (Qeq_bool q 0); simpl; [reflexivity | discriminate].
Qed.

Lemma perDay_step_inv (e : ScanRecord) (o o' : counts) :
  perDay_step e o = Ok o' -> string_or_falsy (timestamp e) = true.
Proof.
  unfold perDay_step, date_of.
  destruct (call_split (or_else (timestamp e) (Str "")) "T"%char) as [parts|] eqn:E;
    simpl; [|discriminate].
  intros _. eapply or_else_split_inv, E.
Qed.

Lemma byRule_step_inv (e : ScanRecord) (o o' : counts) :
  byRule_step e o = Ok o' -> string_or_falsy (matched_rules e) = true.
Proof.
  unfold byRule_step, rules_of.
  destruct (call_split (or_else (matched_rules e) (Str "")) ","%char) as [parts|] eqn:E;
    simpl; [|discriminate].
  intros _. eapply or_else_split_inv, E.
Qed.

Lemma riskOverTime_step_inv (r : ScanRecord) (o o' : counts) :
  riskOverTime_step r o = Ok o' -> string_or_falsy (timestamp r) = true.
Proof.
  unfold riskOverTime_step.
  destruct (timestamp r) as [ | | b | q | s | items | fields ]; simpl;
    try reflexivity; try discriminate.
  - destruct b; simpl; [discriminate | reflexivity].
  - destruct (Qeq_bool q 0); simpl; [reflexivity | discriminate].
Qed.

Lemma computeMetrics_ok_inv (sh : list ScanRecord) (m : Metrics.t) :
  computeMetrics sh = Ok m -> Forall (fun e => wf_local e = true) sh.
Proof.
  unfold computeMetrics.
  destruct (forEach perDay_step sh []) as [pd|] eqn:Hp; simpl; [|discriminate].
  destruct (forEach byRule_step sh []) as [br|] eqn:Hr; simpl; [|discriminate].
  intros _.
  pose proof (forEach_inv perDay_step
                (fun e => string_or_falsy (timestamp e) = true) sh
                perDay_step_inv _ _ Hp) as H1.
  pose proof (forEach_inv byRule_step
                (fun e => string_or_falsy (matched_rules e) = true) sh
                byRule_step_inv _ _ Hr) as H2.
  rewrite Forall_forall in *. intros e He. unfold wf_local.
  rewrite (H1 e He), (H2 e He). reflexivity.
Qed.

Lemma updateDashboard_ok_inv (sh coll : list ScanRecord) (p : Page) :
  snd (updateDashboard sh coll p) = Ok tt ->
  Forall (fun e => wf_local e = true) sh
  /\ Forall (fun r => wf_collective r = true) coll.
Proof.
  unfold updateDashboard, renderCharts, updateAIMetrics, bindM, lift, write.
  destruct (computeMetrics sh) as [m|] eqn:Hm; simpl; [|discriminate].
  destruct (forEach riskOverTime_step coll []) as [rt|] eqn:Hr; simpl; [|discriminate].
  intros _. split; [eapply computeMetrics_ok_inv, Hm|].
  exact (forEach_inv riskOverTime_step _ coll riskOverTime_step_inv _ _ Hr).
Qed.

(** ** Positions in a list *)

Section FirstIndex.
Context {A : Type}.
Implicit Types (p q : A -> bool) (l : list A).

Lemma first_index_le p l : (first_index p l <= List.length l)%nat.
Proof. induction l as [|a l IH]; simpl; [lia | destruct (p a); lia]. Qed.

Lemma first_index_lt p l :
  (first_index p l < List.length l)%nat <-> exists a, In a l /\ p a = true.
Proof.
  induction l as [|a l IH]; simpl.
  - split; [lia | intros [a [[] _]]].
  - destruct (p a) eqn:P.
    + split; [intros _; exists a; auto | lia].
    + rewrite <- Nat.succ_lt_mono, IH. split.
      * intros [b [Hb Pb]]. exists b. auto.
      * intros [b [[-> | Hb] Pb]]; [congruence | exists b; auto].
Qed.

Lemma first_index_absent p l :
  (forall a, In a l -> p a = false) -> first_index p l = List.length l.
Proof.
  induction l as [|a l IH]; simpl; intro H; [reflexivity|].
  rewrite (H a (or_introl eq_refl)). f_equal. apply IH. intros b Hb. apply H. auto.
Qed.

Lemma first_index_app p l1 l2 :
  first_index p (l1 ++ l2) =
    if existsb p l1 then first_index p l1
    else (List.length l1 + first_index p l2)%nat.
Proof.
  induction l1 as [|a l1 IH]; simpl; [reflexivity|].
  destruct (p a); simpl; [reflexivity|].
  rewrite IH. destruct (existsb p l1); reflexivity.
Qed.

Lemma existsb_first_index p l :
  existsb p l = true -> (first_index p l < List.length l)%nat.
Proof.
  intro H. apply first_index_lt. apply existsb_exists in H. exact H.
Qed.

(** Dropping elements that are neither of the two sought ones does not
    change which of the two comes first. *)
Lemma first_index_filter p1 p2 q l :
  (forall a, In a l -> p1 a = true -> q a = true) ->
  (forall a, In a l -> p2 a = true -> q a = true) ->
  ((first_index p1 l < first_index p2 l)%nat
   <-> (first_index p1 (filter q l) < first_index p2 (filter q l))%nat).
Proof.
  induction l as [|a l IH]; intros H1 H2; simpl; [tauto|].
  assert (IH' := IH (fun b Hb => H1 b (or_intror Hb))
                    (fun b Hb => H2 b (or_intror Hb))).
  destruct (p1 a) eqn:P1.
  - rewrite (H1 a (or_introl eq_refl) P1). simpl. rewrite P1.
    destruct (p2 a); lia.
  - destruct (p2 a) eqn:P2.
    + rewrite (H2 a (or_introl eq_refl) P2). simpl. rewrite P1, P2. lia.
    + destruct (q a); simpl; rewrite ?P1, ?P2; lia.
Qed.

(** Two searches that stop at the same place stop at one element. *)
Lemma first_index_same p1 p2 l :
  (first_index p1 l < List.length l)%nat ->
  first_index p1 l = first_index p2 l ->
  exists a, In a l /\ p1 a = true /\ p2 a = true.
Proof.
  induction l as [|x l IH]; simpl; [lia|].
  destruct (p1 x) eqn:P1, (p2 x) eqn:P2; try discriminate.
  - intros _ _. exists x. auto.
  - intros Hl [= Hq]. destruct IH as [a [Ha Pa]]; [lia | exact Hq|].
    exists a. tauto.
Qed.

(** A prefix that contains a sought element finds it where the whole list
    does. *)
Lemma first_index_firstn p n l :
  (exists a, In a (firstn n l) /\ p a = true) ->
  first_index p (firstn n l) = first_index p l.
Proof.
  revert l. induction n as [|n IH]; intros l [a [Ha Pa]].
  - destruct Ha.
  - destruct l as [|b l]; [destruct Ha|]. simpl in *.
    destruct (p b) eqn:Pb; [reflexivity|]. f_equal. apply IH.
    destruct Ha as [-> | Ha]; [congruence | exists a; auto].
Qed.
End FirstIndex.

Lemma first_index_map {A B} (f : A -> B) (p : B -> bool) (l : list A) :
  first_index p (map f l) = first_index (fun a => p (f a)) l.
Proof.
  induction l as [|a l IH]; simpl; [reflexivity|]. rewrite IH. reflexivity.
Qed.

(** ** The stable sort by count *)

Lemma insert_desc_perm (x : string * nat) (l : list (string * nat)) :
  Permutation (insert_desc x l) (x :: l).
Proof.
  induction l as [|y l IH]; simpl; [apply Permutation_refl|].
  destruct (snd y <=? snd x)%nat; [apply Permutation_refl|].
  eapply perm_trans; [apply perm_skip, IH|].
  apply perm_swap.
Qed.

Lemma sort_desc_perm (l : list (string * nat)) :
  Permutation (sort_desc l) l.
Proof.
  induction l as [|x l IH]; simpl; [constructor|].
  eapply perm_trans; [apply insert_desc_perm|].
  apply perm_skip, IH.
Qed.

Lemma insert_desc_sorted (x : string * nat) (l : list (string * nat)) :
  StronglySorted desc l -> StronglySorted desc (insert_desc x l).
Proof.
  induction 1 as [|y l Hs IH Hy]; simpl.
  - repeat constructor.
  - destruct (snd y <=? snd x)%nat eqn:E.
    + apply Nat.leb_le in E. constructor; [constructor; assumption|].
      constructor; [exact E|].
      eapply Forall_impl; [|exact Hy]. unfold desc. intros; lia.
    + apply Nat.leb_gt in E. constructor; [exact IH|].
      eapply Permutation_Forall;
        [apply Permutation_sym, insert_desc_perm|].
      constructor; [unfold desc; lia | exact Hy].
Qed.

Lemma sort_desc_sorted (l : list (string * nat)) : StronglySorted desc (sort_desc l).
Proof.
  induction l as [|x l IH]; simpl; [constructor | apply insert_desc_sorted, IH].
Qed.

Lemma In_firstn {A} (n : nat) (l : list A) (a : A) : In a (firstn n l) -> In a l.
Proof.
  intro H. rewrite <- (firstn_skipn n l). apply in_or_app. left. exact H.
Qed.

Lemma firstn_sorted {A} (R : A -> A -> Prop) (n : nat) (l : list A) :
  StronglySorted R l -> StronglySorted R (firstn n l).
Proof.
  revert l. induction n as [|n IH]; intros l H; [constructor|].
  destruct l as [|a l]; [constructor|]. simpl.
  inversion H as [|? ? Hs Ha]; subst. constructor; [apply IH, Hs|].
  apply Forall_forall. intros b Hb. rewrite Forall_forall in Ha.
  apply Ha. eapply In_firstn. exact Hb.
Qed.

(** Stability: the entries of any one count keep their order. *)
Lemma insert_desc_stable (n : nat) (x : string * nat) (l : list (string * nat)) :
  filter (fun e => (snd e =? n)%nat) (insert_desc x l)
  = filter (fun e => (snd e =? n)%nat) (x :: l).
Proof.
  induction l as [|y l IH]; simpl in *; [reflexivity|].
  destruct (snd y <=? snd x)%nat eqn:E; [reflexivity|].
  apply Nat.leb_gt in E. simpl. rewrite IH.
  destruct (snd x =? n)%nat eqn:X, (snd y =? n)%nat eqn:Y; try reflexivity.
  apply Nat.eqb_eq in X, Y. lia.
Qed.

Lemma sort_desc_stable (n : nat) (l : list (string * nat)) :
  filter (fun e => (snd e =? n)%nat) (sort_desc l)
  = filter (fun e => (snd e =? n)%nat) l.
Proof.
  induction l as [|x l IH]; simpl; [reflexivity|].
  rewrite insert_desc_stable. simpl. rewrite IH. reflexivity.
Qed.

(** ** Counter objects *)

Lemma insert_index_perm (x : N * (string * nat)) (l : list (N * (string * nat))) :
  Permutation (insert_index x l) (x :: l).
Proof.
  induction l as [|y l IH]; simpl; [apply Permutation_refl|].
  destruct (fst x <? fst y)%N; [apply Permutation_refl|].
  eapply perm_trans; [apply perm_skip, IH | apply perm_swap].
Qed.

Lemma sort_index_perm (l : list (N * (string * nat))) :
  Permutation (fold_right insert_index [] l) l.
Proof.
  induction l as [|x l IH]; simpl; [constructor|].
  eapply perm_trans; [apply insert_index_perm | apply perm_skip, IH].
Qed.

(** [Object.entries] lists every own property once. *)
Lemma entries_perm (o : counts) : Permutation (entries o) o.
Proof.
  unfold entries. induction o as [|e o IH]; simpl; [constructor|].
  destruct (array_index (fst e)) as [i|]; simpl.
  - eapply perm_trans; [|apply perm_skip, IH].
    change (e :: map snd (fold_right insert_index [] (index_props o)) ++ named_props o)
      with ((e :: map snd (fold_right insert_index [] (index_props o))) ++ named_props o).
    apply Permutation_app_tail.
    change (e :: map snd (fold_right insert_index [] (index_props o)))
      with (map snd ((i, e) :: fold_right insert_index [] (index_props o))).
    apply Permutation_map, insert_index_perm.
  - eapply perm_trans; [|apply perm_skip, IH].
    apply Permutation_sym, Permutation_middle.
Qed.

Lemma top7_incl (o : counts) (x : string * nat) : In x (top7 o) -> In x o.
Proof.
  unfold top7, slice0. intro H. apply In_firstn in H.
  eapply Permutation_in; [apply entries_perm|].
  eapply Permutation_in; [apply sort_desc_perm | exact H].
Qed.

Lemma existsb_eqb_In (k : string) (ks : list string) :
  existsb (fun s => s =? k) ks = true <-> In k ks.
Proof.
  rewrite existsb_exists. split.
  - intros [s [Hs E]]. apply String.eqb_eq in E. subst. exact Hs.
  - intro H. exists k. split; [exact H | apply String.eqb_refl].
Qed.

Lemma keys_bump (k : string) (o : counts) :
  map fst (bump k o) =
    if existsb (fun s => s =? k) (map fst o) then map fst o else map fst o ++ [k].
Proof.
  induction o as [|[k' n] o IH]; simpl; [reflexivity|].
  destruct (k' =? k) eqn:E; simpl; [reflexivity|].
  rewrite IH. destruct (existsb (fun s => s =? k) (map fst o)); reflexivity.
Qed.

Lemma bump_NoDup (k : string) (o : counts) :
  NoDup (map fst o) -> NoDup (map fst (bump k o)).
Proof.
  intro H. rewrite keys_bump.
  destruct (existsb (fun s => s =? k) (map fst o)) eqn:E; [exact H|].
  apply NoDup_app; [exact H | repeat constructor; intros [] |].
  intros a Ha [<- | []].
  apply existsb_eqb_In in Ha. congruence.
Qed.

Lemma fold_bump_NoDup (ks : list string) (o : counts) :
  NoDup (map fst o) -> NoDup (map fst (fold_left (fun o k => bump k o) ks o)).
Proof.
  revert o. induction ks as [|k ks IH]; intros o H; simpl; [exact H|].
  apply IH, bump_NoDup, H.
Qed.

Lemma tally_NoDup (ks : list string) : NoDup (map fst (tally ks)).
Proof. apply fold_bump_NoDup. constructor. Qed.

Lemma fold_bump_keys (ks : list string) (o : counts) (k : string) :
  In k (map fst (fold_left (fun o k => bump k o) ks o)) <-> In k (map fst o) \/ In k ks.
Proof.
  revert o. induction ks as [|k' ks IH]; intro o; simpl; [tauto|].
  rewrite IH, keys_bump.
  destruct (existsb (fun s => s =? k') (map fst o)) eqn:E.
  - apply existsb_eqb_In in E. split; [tauto|].
    intros [H | [<- | H]]; auto.
  - rewrite in_app_iff. simpl. tauto.
Qed.

Lemma tally_keys (ks : list string) (k : string) :
  In k (map fst (tally ks)) <-> In k ks.
Proof. unfold tally. rewrite fold_bump_keys. simpl. tauto. Qed.

(** A key that is already there, met again, changes no order of first
    occurrences. *)
Lemma first_seen_again (k k1 k2 : string) (K ks : list string) :
  In k K ->
  ((first_seen k1 (K ++ ks) < first_seen k2 (K ++ ks))%nat
   <-> (first_seen k1 (K ++ k :: ks) < first_seen k2 (K ++ k :: ks))%nat).
Proof.
  intro Hk. unfold first_seen. rewrite !first_index_app. simpl.
  assert (Hne : forall k', existsb (fun s => s =? k') K = false -> (k =? k') = false).
  { intros k' E. destruct (k =? k') eqn:E'; [|reflexivity].
    apply String.eqb_eq in E'. subst k'.
    apply existsb_eqb_In in Hk. congruence. }
  destruct (existsb (fun s => s =? k1) K) eqn:E1,
           (existsb (fun s => s =? k2) K) eqn:E2;
    rewrite ?(Hne _ E1), ?(Hne _ E2); try tauto.
  - apply existsb_first_index in E1. lia.
  - apply existsb_first_index in E2. lia.
  - lia.
Qed.

(** The properties of the counter are created in the order in which the
    keys are first seen. *)
Lemma fold_bump_order (ks : list string) (o : counts) (k1 k2 : string) :
  (first_seen k1 (map fst (fold_left (fun o k => bump k o) ks o))
   < first_seen k2 (map fst (fold_left (fun o k => bump k o) ks o)))%nat
  <-> (first_seen k1 (map fst o ++ ks) < first_seen k2 (map fst o ++ ks))%nat.
Proof.
  revert o. induction ks as [|k ks IH]; intro o; simpl.
  - rewrite app_nil_r. tauto.
  - rewrite IH, keys_bump.
    destruct (existsb (fun s => s =? k) (map fst o)) eqn:E.
    + apply first_seen_again, existsb_eqb_In, E.
    + rewrite <- app_assoc. simpl. tauto.
Qed.

Lemma rank_of_keys (k : string) (es : list (string * nat)) :
  rank_of k es = first_seen k (map fst es).
Proof. unfold rank_of, first_seen. rewrite first_index_map. reflexivity. Qed.

Lemma tally_order (ks : list string) (k1 k2 : string) :
  (rank_of k1 (tally ks) < rank_of k2 (tally ks))%nat
  <-> (first_seen k1 ks < first_seen k2 ks)%nat.
Proof.
  rewrite !rank_of_keys. apply (fold_bump_order ks [] k1 k2).
Qed.

(** ** The ranked lists *)

Lemma NoDup_keys_unique (l : list (string * nat)) (a b : string * nat) :
  NoDup (map fst l) -> In a l -> In b l -> fst a = fst b -> a = b.
Proof.
  induction l as [|x l IH]; simpl; intros Hnd Ha Hb E; [destruct Ha|].
  inversion Hnd as [|? ? Hx Hl]; subst.
  destruct Ha as [-> | Ha], Hb as [-> | Hb]; auto.
  - exfalso. apply Hx. rewrite E. apply in_map, Hb.
  - exfalso. apply Hx. rewrite <- E. apply in_map, Ha.
Qed.

Lemma entries_NoDup (o : counts) : NoDup (map fst o) -> NoDup (map fst (entries o)).
Proof.
  intro H. eapply Permutation_NoDup; [|exact H].
  apply Permutation_map, Permutation_sym, entries_perm.
Qed.

Lemma sort_desc_NoDup (l : list (string * nat)) :
  NoDup (map fst l) -> NoDup (map fst (sort_desc l)).
Proof.
  intro H. eapply Permutation_NoDup; [|exact H].
  apply Permutation_map, Permutation_sym, sort_desc_perm.
Qed.

Lemma firstn_NoDup {A} (n : nat) (l : list A) : NoDup l -> NoDup (firstn n l).
Proof.
  intro H. rewrite <- (firstn_skipn n l) in H. apply NoDup_app_remove_r in H. exact H.
Qed.

Lemma top7_NoDup (o : counts) : NoDup (map fst o) -> NoDup (map fst (top7 o)).
Proof.
  intro H. unfold top7, slice0. rewrite <- firstn_map.
  apply firstn_NoDup, sort_desc_NoDup, entries_NoDup, H.
Qed.

(** Among entries of one count, the sort keeps the order of
    [Object.entries]. *)
Lemma sort_desc_tie_order (l : list (string * nat)) (k1 k2 : string) (n : nat) :
  NoDup (map fst l) -> In (k1, n) l -> In (k2, n) l ->
  ((rank_of k1 (sort_desc l) < rank_of k2 (sort_desc l))%nat
   <-> (rank_of k1 l < rank_of k2 l)%nat).
Proof.
  intros Hnd H1 H2. unfold rank_of.
  assert (Hq : forall l' k, Permutation l' l -> In (k, n) l ->
             forall a, In a l' -> (fst a =? k) = true -> (snd a =? n)%nat = true).
  { intros l' k Hp Hk a Ha E. apply String.eqb_eq in E.
    assert (a = (k, n)) as ->.
    { apply (NoDup_keys_unique l); auto.
      eapply Permutation_in; [exact Hp | exact Ha]. }
    apply Nat.eqb_refl. }
  rewrite (first_index_filter _ _ (fun e => (snd e =? n)%nat) (sort_desc l))
    by (eapply Hq; eauto using sort_desc_perm).
  rewrite sort_desc_stable.
  rewrite <- (first_index_filter _ _ (fun e => (snd e =? n)%nat) l)
    by (eapply Hq; eauto using Permutation_refl).
  tauto.
Qed.

Lemma top7_tie_order (o : counts) (k1 k2 : string) (n : nat) :
  NoDup (map fst o) -> In (k1, n) (top7 o) -> In (k2, n) (top7 o) ->
  ((rank_of k1 (top7 o) < rank_of k2 (top7 o))%nat
   <-> (rank_of k1 (entries o) < rank_of k2 (entries o))%nat).
Proof.
  intros Hnd H1 H2. unfold top7, slice0, rank_of in *.
  rewrite (first_index_firstn (fun e => fst e =? k1))
    by (exists (k1, n); split; [exact H1 | apply String.eqb_refl]).
  rewrite (first_index_firstn (fun e => fst e =? k2))
    by (exists (k2, n); split; [exact H2 | apply String.eqb_refl]).
  apply In_firstn in H1, H2.
  apply (sort_desc_tie_order (entries o) k1 k2 n).
  - apply entries_NoDup, Hnd.
  - eapply Permutation_in; [apply sort_desc_perm | exact H1].
  - eapply Permutation_in; [apply sort_desc_perm | exact H2].
Qed.

Lemma index_props_In (o : counts) (i : N) (e : string * nat) :
  In (i, e) (index_props o) -> array_index (fst e) = Some i.
Proof.
  unfold index_props. rewrite in_flat_map. intros [x [_ Hx]].
  destruct (array_index (fst x)) as [j|] eqn:E; [|destruct Hx].
  destruct Hx as [[= <- <-] | []]. exact E.
Qed.

Lemma entries_index_part (o : counts) (e : string * nat) :
  In e (map snd (fold_right insert_index [] (index_props o))) ->
  exists i, array_index (fst e) = Some i.
Proof.
  rewrite in_map_iff. intros [[i e'] [<- H]]. exists i. simpl.
  apply (index_props_In o).
  eapply Permutation_in; [apply sort_index_perm | exact H].
Qed.

(** Keys that are not array indices are enumerated in creation order. *)
Lemma entries_named_order (o : counts) (k1 k2 : string) :
  array_index k1 = None -> array_index k2 = None ->
  ((rank_of k1 (entries o) < rank_of k2 (entries o))%nat
   <-> (rank_of k1 o < rank_of k2 o)%nat).
Proof.
  intros N1 N2. unfold rank_of, entries.
  assert (Hi : forall k, array_index k = None ->
             existsb (fun e => fst e =? k)
               (map snd (fold_right insert_index [] (index_props o))) = false).
  { intros k Hk. destruct (existsb _ _) eqn:E; [|reflexivity].
    apply existsb_exists in E. destruct E as [e [He Ek]].
    apply String.eqb_eq in Ek. subst k.
    destruct (entries_index_part o e He) as [i Hi]. congruence. }
  rewrite !first_index_app, (Hi k1 N1), (Hi k2 N2).
  unfold named_props.
  rewrite (first_index_filter (fun e => fst e =? k1) (fun e => fst e =? k2)
    (fun e => match array_index (fst e) with Some _ => false | None => true end) o).
  - lia.
  - intros a _ E. apply String.eqb_eq in E. rewrite E, N1. reflexivity.
  - intros a _ E. apply String.eqb_eq in E. rewrite E, N2. reflexivity.
Qed.

Lemma insert_index_sorted (x : N * (string * nat)) (l : list (N * (string * nat))) :
  StronglySorted by_index l -> StronglySorted by_index (insert_index x l).
Proof.
  induction 1 as [|y l Hs IH Hy]; simpl.
  - repeat constructor.
  - destruct (fst x <? fst y)%N eqn:E.
    + apply N.ltb_lt in E. constructor; [constructor; assumption|].
      constructor; [unfold by_index; lia|].
      eapply Forall_impl; [|exact Hy]. unfold by_index. intros; lia.
    + apply N.ltb_ge in E. constructor; [exact IH|].
      eapply Permutation_Forall; [apply Permutation_sym, insert_index_perm|].
      constructor; [exact E | exact Hy].
Qed.

Lemma sort_index_sorted (l : list (N * (string * nat))) :
  StronglySorted by_index (fold_right insert_index [] l).
Proof.
  induction l as [|x l IH]; simpl; [constructor | apply insert_index_sorted, IH].
Qed.

(** In a sorted list, of two elements that are there, the one found first
    is the smaller. *)
Lemma sorted_first_index {A} (R : A -> A -> Prop) (p1 p2 : A -> bool) (l : list A) :
  StronglySorted R l ->
  (first_index p2 l < first_index p1 l)%nat ->
  (first_index p1 l < List.length l)%nat ->
  exists a b, In a l /\ In b l /\ p2 a = true /\ p1 b = true /\ R a b.
Proof.
  induction 1 as [|x l Hs IH Hx]; simpl; [lia|].
  destruct (p2 x) eqn:P2.
  - destruct (p1 x) eqn:P1; [lia|]. intros _ Hlt.
    apply Nat.succ_lt_mono in Hlt. apply first_index_lt in Hlt.
    destruct Hlt as [b [Hb Pb]]. exists x, b.
    rewrite Forall_forall in Hx. auto 6.
  - destruct (p1 x) eqn:P1; [lia|]. intros H1 H2.
    destruct IH as [a [b [Ha [Hb [Pa [Pb Rab]]]]]]; [lia | lia|].
    exists a, b. auto 6.
Qed.

Lemma index_props_key (o : counts) (k : string) (i : N) :
  In k (map fst o) -> array_index k = Some i ->
  existsb (fun e => fst e =? k)
    (map snd (fold_right insert_index [] (index_props o))) = true.
Proof.
  intros Hk Hi. apply existsb_exists.
  apply in_map_iff in Hk. destruct Hk as [e [<- He]].
  exists e. split; [|apply String.eqb_refl].
  apply in_map_iff. exists (i, e). split; [reflexivity|].
  eapply Permutation_in; [apply Permutation_sym, sort_index_perm|].
  unfold index_props. apply in_flat_map. exists e. split; [exact He|].
  rewrite Hi. left. reflexivity.
Qed.

(** Array-index keys are enumerated before all other keys. *)
Lemma entries_index_first (o : counts) (k1 k2 : string) (i : N) :
  In k1 (map fst o) -> array_index k1 = Some i -> array_index k2 = None ->
  (rank_of k1 (entries o) < rank_of k2 (entries o))%nat.
Proof.
  intros H1 I1 N2. unfold rank_of, entries. rewrite !first_index_app.
  rewrite (index_props_key o k1 i H1 I1).
  destruct (existsb (fun e => fst e =? k2) _) eqn:E.
  - apply existsb_exists in E. destruct E as [e [He Ek]].
    apply String.eqb_eq in Ek. subst k2.
    destruct (entries_index_part o e He) as [j Hj]. congruence.
  - pose proof (existsb_first_index _ _ (index_props_key o k1 i H1 I1)). lia.
Qed.

(** Array-index keys are enumerated in ascending numeric order. *)
Lemma entries_index_order (o : counts) (k1 k2 : string) (i1 i2 : N) :
  In k1 (map fst o) -> In k2 (map fst o) ->
  array_index k1 = Some i1 -> array_index k2 = Some i2 -> (i1 < i2)%N ->
  (rank_of k1 (entries o) < rank_of k2 (entries o))%nat.
Proof.
  intros H1 H2 I1 I2 Hlt. unfold rank_of, entries. rewrite !first_index_app.
  pose proof (index_props_key o k1 i1 H1 I1) as E1.
  pose proof (index_props_key o k2 i2 H2 I2) as E2.
  rewrite E1, E2.
  apply existsb_first_index in E1. rewrite length_map in E1.
  rewrite !first_index_map.
  destruct (Nat.lt_trichotomy
              (first_index (fun a => fst (snd a) =? k1)
                 (fold_right insert_index [] (index_props o)))
              (first_index (fun a => fst (snd a) =? k2)
                 (fold_right insert_index [] (index_props o))))
    as [Hc | [Hc | Hc]]; [exact Hc | |]; exfalso.
  - (* the same element would carry both keys *)
    rewrite first_index_map in E1.
    destruct (first_index_same _ _ _ E1 Hc) as [a [_ [Pa Pb]]].
    apply String.eqb_eq in Pa, Pb. rewrite Pa in Pb. subst k2.
    rewrite I1 in I2. injection I2 as ->. lia.
  - destruct (sorted_first_index by_index _ _ _ (sort_index_sorted (index_props o)) Hc)
      as [a [b [Ha [Hb [Pa [Pb Rab]]]]]].
    { pose proof (index_props_key o k1 i1 H1 I1) as E1'.
      apply existsb_first_index in E1'.
      rewrite first_index_map, length_map in E1'. exact E1'. }
    destruct a as [ia ea], b as [ib eb]. simpl in *.
    apply String.eqb_eq in Pa, Pb. subst k1 k2.
    assert (array_index (fst ea) = Some ia).
    { apply (index_props_In o).
      eapply Permutation_in; [apply sort_index_perm | exact Ha]. }
    assert (array_index (fst eb) = Some ib).
    { apply (index_props_In o).
      eapply Permutation_in; [apply sort_index_perm | exact Hb]. }
    unfold by_index in Rab. simpl in Rab.
    assert (ia = i2) by congruence. assert (ib = i1) by congruence. lia.
Qed.

(** A prefix that holds the later of two elements holds the earlier. *)
Lemma firstn_closed {A} (p1 p2 : A -> bool) (n : nat) (l : list A) :
  (first_index p1 l < first_index p2 l)%nat ->
  (exists b, In b (firstn n l) /\ p2 b = true) ->
  exists a, In a (firstn n l) /\ p1 a = true.
Proof.
  revert l. induction n as [|n IH]; intros l Hlt [b [Hb Pb]]; [destruct Hb|].
  destruct l as [|x l]; [destruct Hb|]. simpl in *.
  destruct (p1 x) eqn:P1; [exists x; auto|].
  destruct (p2 x) eqn:P2; [lia|].
  destruct Hb as [-> | Hb]; [congruence|].
  destruct (IH l) as [a [Ha Pa]]; [lia | exists b; auto | exists a; auto].
Qed.

(** ** What the counters hold *)

Lemma lookup_bump (k k' : string) (o : counts) :
  lookup k (bump k' o) =
    if k' =? k then Some (S (count_or_0 (lookup k o))) else lookup k o.
Proof.
  induction o as [|[k'' n] o IH]; simpl.
  - destruct (k' =? k); reflexivity.
  - destruct (k'' =? k') eqn:E1; simpl.
    + apply String.eqb_eq in E1. subst k''.
      destruct (k' =? k); reflexivity.
    + destruct (k'' =? k) eqn:E2.
      * destruct (k' =? k) eqn:E3; [|reflexivity].
        apply String.eqb_eq in E2, E3. subst.
        rewrite String.eqb_refl in E1. discriminate.
      * exact IH.
Qed.

Lemma fold_bump_lookup (ks : list string) (o : counts) (k : string) :
  lookup k (fold_left (fun o k => bump k o) ks o) =
    match count_occ string_dec ks k with
    | O => lookup k o
    | S c => Some (S c + count_or_0 (lookup k o))%nat
    end.
Proof.
  revert o. induction ks as [|k' ks IH]; intro o; simpl; [reflexivity|].
  rewrite IH, lookup_bump.
  destruct (string_dec k' k) as [-> | Hne].
  - rewrite String.eqb_refl. simpl.
    destruct (count_occ string_dec ks k); f_equal; lia.
  - apply String.eqb_neq in Hne. rewrite Hne. reflexivity.
Qed.

Lemma tally_lookup (ks : list string) (k : string) :
  lookup k (tally ks) =
    match count_occ string_dec ks k with
    | O => None
    | S c => Some (S c)
    end.
Proof.
  unfold tally. rewrite fold_bump_lookup. simpl.
  destruct (count_occ string_dec ks k); f_equal; lia.
Qed.

Lemma In_lookup (o : counts) (k : string) (n : nat) :
  NoDup (map fst o) -> In (k, n) o -> lookup k o = Some n.
Proof.
  induction o as [|[k' n'] o IH]; simpl; intros Hnd H; [destruct H|].
  inversion Hnd as [|? ? Hx Hl]; subst.
  destruct H as [[= -> ->] | H].
  - rewrite String.eqb_refl. reflexivity.
  - destruct (k' =? k) eqn:E; [|apply IH; assumption].
    apply String.eqb_eq in E. subst k'. exfalso. apply Hx.
    apply (in_map fst) in H. exact H.
Qed.

(** An entry of the counter holds the number of times its key was met. *)
Lemma tally_count (ks : list string) (k : string) (n : nat) :
  In (k, n) (tally ks) -> n = count_occ string_dec ks k /\ (0 < n)%nat.
Proof.
  intro H. apply In_lookup in H; [|apply tally_NoDup].
  rewrite tally_lookup in H.
  destruct (count_occ string_dec ks k); [discriminate|].
  injection H as <-. split; [reflexivity | lia].
Qed.

(** The three counters of the ranked lists are tallies of the keys their
    passes meet. *)
Lemma get_as_cells (k : string) (o : counts) :
  get k (as_cells o) = option_map Count (lookup k o).
Proof.
  induction o as [|[k' n] o IH]; [reflexivity|].
  simpl. destruct (k' =? k); [reflexivity | exact IH].
Qed.

Lemma put_as_cells (k : string) (n : nat) (o : counts) :
  lookup k o = Some n -> put k (Count (S n)) (as_cells o) = as_cells (bump k o).
Proof.
  induction o as [|[k' m] o IH]; simpl; [discriminate|].
  destruct (k' =? k); simpl.
  - intros [= ->]. reflexivity.
  - intro H. rewrite (IH H). reflexivity.
Qed.

Lemma put_new_as_cells (k : string) (o : counts) :
  lookup k o = None -> put k (Count 1) (as_cells o) = as_cells (bump k o).
Proof.
  induction o as [|[k' m] o IH]; simpl; [reflexivity|].
  destruct (k' =? k); simpl; [discriminate|].
  intro H. rewrite (IH H). reflexivity.
Qed.

Lemma assign_bump (k : string) (o : counts) :
  inherited k = false -> assign k (as_cells o) = as_cells (bump k o).
Proof.
  intro H. unfold assign. rewrite get_as_cells, H.
  destruct (lookup k o) as [n|] eqn:L; simpl.
  - apply put_as_cells, L.
  - apply put_new_as_cells, L.
Qed.

Lemma get_put (k : string) (v : cell) (o : cells) : get k (put k v o) = Some v.
Proof.
  induction o as [|[k' c] o IH]; simpl; [rewrite String.eqb_refl; reflexivity|].
  destruct (k' =? k) eqn:E; simpl; rewrite E; [reflexivity | exact IH].
Qed.

(** X20: the counter objects of the model are the objects the code builds
    as long as the keys are no inherited names: on such keys the
    assignment [o[k] = (o[k] || 0) + 1] is [bump], so a pass over them
    leaves the tally. Under an inherited name that the object does not own
    yet, the assignment stores a string and no count, and under
    [__proto__] it stores nothing. *)
Theorem X20_counters_on_own_keys (ks : list string) :
  own_keys ks = true ->
  fold_left (fun o k => assign k o) ks [] = as_cells (tally ks)
  /\ (forall k o, inherited k = false ->
        assign k (as_cells o) = as_cells (bump k o))
  /\ (forall k o, inherited k = true -> get k o = None ->
        get k (assign k o) = if k =? "__proto__" then None else Some Text)
  /\ (forall o, get "__proto__" o = None -> assign "__proto__" o = o)
  /\ (forall k o, get k o = Some Text -> get k (assign k o) = Some Text).
Proof.
  intro H. split; [|split; [|split; [|split]]].
  - unfold tally. change (@nil (string * cell)) with (as_cells []).
    generalize (@nil (string * nat)). revert H.
    induction ks as [|k ks IH]; intros H o; [reflexivity|].
    simpl in H. apply andb_prop in H. destruct H as [Hk Hks].
    apply negb_true_iff in Hk. simpl.
    rewrite (assign_bump k o Hk). apply IH, Hks.
  - apply assign_bump.
  - intros k o Hi Hg. unfold assign. rewrite Hg, Hi.
    destruct (k =? "__proto__"); [exact Hg | apply get_put].
  - intros o Hg. unfold assign. rewrite Hg. reflexivity.
  - intros k o Hg. unfold assign. rewrite Hg. apply get_put.
Qed.

Lemma X20_counters_on_own_keys_witness :
  fold_left (fun o k => assign k o) ["b@example.org"; "419"; "b@example.org"] []
  = [("b@example.org", Count 2); ("419", Count 1)]
  /\ fold_left (fun o k => assign k o) ["constructor"; "__proto__"; "constructor"] []
     = [("constructor", Text)].
Proof.
  split; [|reflexivity].
  exact (proj1 (X20_counters_on_own_keys
                  ["b@example.org"; "419"; "b@example.org"] eq_refl)).
Defined.

Lemma bySender_of_tally (sh : list ScanRecord) : bySender_of sh = tally (local_ids sh).
Proof.
  unfold bySender_of, tally, local_ids. generalize (@nil (string * nat)).
  induction sh as [|e sh IH]; intro o; simpl; [reflexivity|].
  unfold bySender_step at 2.
  destruct (local_identity e =? ""); simpl; apply IH.
Qed.

Lemma collSenders_of_tally (coll : list ScanRecord) :
  collSenders_of coll = tally (collective_ids coll).
Proof.
  unfold collSenders_of, tally, collective_ids. generalize (@nil (string * nat)).
  induction coll as [|r coll IH]; intro o; simpl; [reflexivity|].
  unfold collSenders_step at 2.
  destruct (sender r) as [s|]; simpl; [|apply IH].
  destruct (s =? ""); simpl; apply IH.
Qed.

Lemma byRule_tally_from (sh : list ScanRecord) (seen : list string) :
  forEach byRule_step sh (tally seen) =
    bind (forEach (fun e seen => bind (rules_of (matched_rules e))
                                      (fun rules => Ok (seen ++ rules))) sh seen)
         (fun ks => Ok (tally ks)).
Proof.
  revert seen. induction sh as [|e sh IH]; intro seen; simpl; [reflexivity|].
  unfold byRule_step at 1.
  destruct (rules_of (matched_rules e)) as [rules|]; simpl; [|reflexivity].
  replace (fold_left (fun o r => bump r o) rules (tally seen))
    with (tally (seen ++ rules)) by (unfold tally; apply fold_left_app).
  apply IH.
Qed.

Lemma byRule_tally (sh : list ScanRecord) :
  forEach byRule_step sh [] = bind (rule_tokens sh) (fun ks => Ok (tally ks)).
Proof. apply (byRule_tally_from sh []). Qed.

Lemma computeMetrics_counters (sh : list ScanRecord) (m : Metrics.t) :
  computeMetrics sh = Ok m ->
  Metrics.bySender m = tally (local_ids sh)
  /\ exists ks, rule_tokens sh = Ok ks /\ Metrics.byRule m = tally ks.
Proof.
  unfold computeMetrics.
  destruct (forEach perDay_step sh []); simpl; [|discriminate].
  rewrite byRule_tally.
  destruct (rule_tokens sh) as [ks|]; simpl; [|discriminate].
  intros [= <-]. simpl. split; [apply bySender_of_tally|].
  exists ks. auto.
Qed.

(** C6 as stated fails: a record matches the rules [urgent_language] and
    [419], in that order, once each. [Object.entries(byRule)] lists the
    array-index key [419] first, so the rules ranking shows [419] before
    [urgent_language], which was seen first. *)
Lemma C6_array_index_key_counterexample :
  let sh := [scan "a@example.org" 8 "2025-01-01T00:00:00" "urgent_language, 419"] in
  let r := [("419", 1%nat); ("urgent_language", 1%nat)] in
  rule_tokens sh = Ok ["urgent_language"; "419"]
  /\ charts (fst (renderCharts sh [] blank)) rules = Some (Series r)
  /\ (first_seen "urgent_language" ["urgent_language"; "419"]
      < first_seen "419" ["urgent_language"; "419"])%nat
  /\ ~ (rank_of "urgent_language" r < rank_of "419" r)%nat.
Proof.
  repeat split; try reflexivity.
  - vm_compute. lia.
  - vm_compute. lia.
Qed.

(** C6, amended: let the keys a counter meets be no inherited names (the
    names of the properties of [Object.prototype]). The ranked list is the
    first seven entries of the counter sorted by count, larger first: it is
    descending, has at most 7 entries, no key twice, and each count is the
    number of times the key was met. Entries of equal count stand in the
    order of [Object.entries]: keys that are array indices first, in
    ascending numeric order, then the other keys in the order in which they
    were first seen; and when a key is ranked, every key of the same count
    that precedes it in that order is ranked too. The three ranked lists
    drawn are those of the local identities, of the collective senders and
    of the rule tokens. *)
Theorem C6_ranking_order (ks : list string) :
  own_keys ks = true ->
  let r := top7 (tally ks) in
  StronglySorted (fun a b => (snd b <= snd a)%nat) r
  /\ (List.length r <= 7)%nat
  /\ NoDup (map fst r)
  /\ (forall k n, In (k, n) r -> n = count_occ string_dec ks k /\ (0 < n)%nat)
  /\ (forall k1 k2 n, In (k1, n) r -> In (k2, n) r ->
        array_index k1 = None -> array_index k2 = None ->
        (first_seen k1 ks < first_seen k2 ks)%nat ->
        (rank_of k1 r < rank_of k2 r)%nat)
  /\ (forall k1 k2 n i, In (k1, n) r -> In (k2, n) r ->
        array_index k1 = Some i -> array_index k2 = None ->
        (rank_of k1 r < rank_of k2 r)%nat)
  /\ (forall k1 k2 n i1 i2, In (k1, n) r -> In (k2, n) r ->
        array_index k1 = Some i1 -> array_index k2 = Some i2 -> (i1 < i2)%N ->
        (rank_of k1 r < rank_of k2 r)%nat)
  /\ (forall k1 k2 n, In (k2, n) r -> In (k1, n) (tally ks) ->
        array_index k1 = None -> array_index k2 = None ->
        (first_seen k1 ks < first_seen k2 ks)%nat ->
        In (k1, n) r)
  /\ (forall sh coll p m, computeMetrics sh = Ok m ->
        (local_ids sh = ks ->
           charts (fst (renderCharts sh coll p)) threats = Some (Series r))
        /\ (collective_ids coll = ks ->
           charts (fst (renderCharts sh coll p)) senders = Some (Series r))
        /\ (rule_tokens sh = Ok ks ->
           charts (fst (renderCharts sh coll p)) rules = Some (Series r))).
Proof.
  intros _ r. subst r.
  pose proof (tally_NoDup ks) as Hnd.
  assert (Hin : forall k n, In (k, n) (top7 (tally ks)) -> In k (map fst (tally ks))).
  { intros k n H. apply top7_incl in H. apply (in_map fst) in H. exact H. }
  split; [|split; [|split; [|split; [|split; [|split; [|split; [|split]]]]]]].
  - unfold top7, slice0. apply firstn_sorted. apply (sort_desc_sorted (entries (tally ks))).
  - unfold top7, slice0. apply firstn_le_length.
  - apply top7_NoDup, Hnd.
  - intros k n H. apply tally_count. apply top7_incl, H.
  - intros k1 k2 n H1 H2 N1 N2 Hlt.
    apply (top7_tie_order _ k1 k2 n Hnd H1 H2).
    apply (entries_named_order _ k1 k2 N1 N2).
    apply tally_order, Hlt.
  - intros k1 k2 n i H1 H2 I1 N2.
    apply (top7_tie_order _ k1 k2 n Hnd H1 H2).
    apply (entries_index_first _ k1 k2 i); eauto.
  - intros k1 k2 n i1 i2 H1 H2 I1 I2 Hlt.
    apply (top7_tie_order _ k1 k2 n Hnd H1 H2).
    apply (entries_index_order _ k1 k2 i1 i2); eauto.
  - intros k1 k2 n H2 H1 N1 N2 Hlt.
    assert (He1 : In (k1, n) (entries (tally ks)))
      by (eapply Permutation_in; [apply Permutation_sym, entries_perm | exact H1]).
    assert (He2 : In (k2, n) (entries (tally ks))).
    { eapply Permutation_in; [apply Permutation_sym, entries_perm|].
      apply top7_incl, H2. }
    assert (Hs : (rank_of k1 (sort_desc (entries (tally ks)))
                  < rank_of k2 (sort_desc (entries (tally ks))))%nat).
    { apply (sort_desc_tie_order _ k1 k2 n); auto using entries_NoDup.
      apply (entries_named_order _ k1 k2 N1 N2). apply tally_order, Hlt. }
    destruct (firstn_closed (fun e => fst e =? k1) (fun e => fst e =? k2) 7
                (sort_desc (entries (tally ks))) Hs) as [a [Ha Pa]].
    { exists (k2, n). split; [exact H2 | apply String.eqb_refl]. }
    apply String.eqb_eq in Pa.
    assert (a = (k1, n)) as ->; [|exact Ha].
    apply (NoDup_keys_unique (sort_desc (entries (tally ks)))).
    + apply sort_desc_NoDup, entries_NoDup, Hnd.
    + apply In_firstn in Ha. exact Ha.
    + eapply Permutation_in; [apply Permutation_sym, sort_desc_perm | exact He1].
    + exact Pa.
  - intros sh coll p m Hm.
    destruct (renderCharts_senders sh coll p) as [Hs Ht].
    rewrite Hm in Hs, Ht.
    destruct (computeMetrics_counters sh m Hm) as [Hb [tokens [Hk Hr]]].
    rewrite Hb in Ht. rewrite collSenders_of_tally in Hs.
    split; [intros <-; exact Ht | split; [intros <-; exact Hs|]].
    intro Hks. rewrite Hks in Hk. injection Hk as <-.
    rewrite renderCharts_rules, Hm, Hr. reflexivity.
Qed.

(** C6, amended, on a tie between two senders: the one seen first is
    ranked first. *)
Lemma C6_ranking_order_witness :
  own_keys ["b@example.org"; "a@example.org"; "a@example.org"; "b@example.org"] = true
  /\ (rank_of "b@example.org" (top7 (tally ["b@example.org"; "a@example.org";
                                            "a@example.org"; "b@example.org"]))
      < rank_of "a@example.org" (top7 (tally ["b@example.org"; "a@example.org";
                                              "a@example.org"; "b@example.org"])))%nat.
Proof.
  split; [reflexivity|].
  destruct (C6_ranking_order ["b@example.org"; "a@example.org";
                              "a@example.org"; "b@example.org"] eq_refl)
    as (_ & _ & _ & _ & T & _).
  apply (T "b@example.org" "a@example.org" 2%nat).
  - vm_compute. auto.
  - vm_compute. auto.
  - reflexivity.
  - reflexivity.
  - vm_compute. lia.
Defined.

(** ** Records with a non-string [matched_rules] *)

(** C7 as stated fails: on a record whose [matched_rules] is a JSON array,
    [(e.matched_rules || '').split(',')] calls a method an array does not
    have; [computeMetrics] throws, and so does [updateDashboard], before
    anything is written to the page. *)
Lemma C7_nonstring_rules_counterexample :
  truthy (matched_rules rules_as_array) = true
  /\ computeMetrics [rules_as_array] = TypeError
  /\ updateDashboard [rules_as_array] [] blank = (blank, TypeError).
Proof. repeat split; reflexivity. Qed.

(** C7, amended: [computeMetrics] and [updateDashboard] complete without
    an error exactly when every [timestamp] and, in [scanHistory], every
    [matched_rules] is a string or falsy (absent, [null], [0], [false],
    the empty string); absent fields are among these, and [score],
    [sender] and [ai_details] may be absent. A record whose timestamp is
    absent adds nothing to [perDay], and a record whose score is absent
    counts with score 0. *)
Theorem C7_total_on_absent_fields (sh coll : list ScanRecord) (p : Page) :
  ((exists m, computeMetrics sh = Ok m) <-> Forall (fun e => wf_local e = true) sh)
  /\ (snd (updateDashboard sh coll p) = Ok tt
      <-> Forall (fun e => wf_local e = true) sh
          /\ Forall (fun r => wf_collective r = true) coll)
  /\ (forall e, truthy (timestamp e) = false -> truthy (matched_rules e) = false ->
        wf_local e = true /\ wf_collective e = true)
  /\ (forall m, computeMetrics sh = Ok m ->
        forEach perDay_step sh [] = Ok (Metrics.perDay m))
  /\ (forall l1 l2 e, sh = l1 ++ e :: l2 -> truthy (timestamp e) = false ->
        forEach perDay_step sh [] = forEach perDay_step (l1 ++ l2) [])
  /\ (forall e, score e = None -> score_of e = 0).
Proof.
  split; [|split; [|split; [|split; [|split]]]].
  - split; [intros [m Hm]; eapply computeMetrics_ok_inv, Hm | apply computeMetrics_ok].
  - split; [apply updateDashboard_ok_inv | intros [Hs Hc]; apply updateDashboard_ok; assumption].
  - intros e Ht Hr. unfold wf_local, wf_collective, string_or_falsy.
    destruct (timestamp e), (matched_rules e); simpl in *;
      rewrite ?Ht, ?Hr; try reflexivity; auto.
  - intros m Hm. unfold computeMetrics in Hm.
    destruct (forEach perDay_step sh []) as [pd|]; simpl in Hm; [|discriminate].
    destruct (forEach byRule_step sh []) as [br|]; simpl in Hm; [|discriminate].
    injection Hm as <-. reflexivity.
  - intros l1 l2 e -> He. apply forEach_skip. intro o.
    apply perDay_step_falsy, He.
  - intros e He. unfold score_of. rewrite He. reflexivity.
Qed.

(** C7, amended, on a collection that holds a record with no field at
    all. *)
Lemma C7_total_on_absent_fields_witness :
  Forall (fun e => wf_local e = true)
         [bare; scan "a@example.org" 8 "2025-01-01T00:00:00" "spf_fail"; from_only]
  /\ Forall (fun r => wf_collective r = true) [bare]
  /\ snd (updateDashboard
            [bare; scan "a@example.org" 8 "2025-01-01T00:00:00" "spf_fail"; from_only]
            [bare] blank) = Ok tt.
Proof.
  assert (H1 : Forall (fun e => wf_local e = true)
                 [bare; scan "a@example.org" 8 "2025-01-01T00:00:00" "spf_fail"; from_only])
    by (repeat constructor).
  assert (H2 : Forall (fun r => wf_collective r = true) [bare])
    by (repeat constructor).
  split; [exact H1 | split; [exact H2|]].
  apply (proj2 (proj1 (proj2 (C7_total_on_absent_fields _ _ blank)))).
  split; assumption.
Defined.

(** ** Records without a sender *)

Lemma local_identity_empty (e : ScanRecord) :
  (sender e = None \/ sender e = Some "") ->
  (email_from e = None \/ email_from e = Some "") ->
  local_identity e = "".
Proof.
  unfold local_identity. intros [-> | ->] [-> | ->]; reflexivity.
Qed.

Lemma local_identity_fallback (e : ScanRecord) (f : string) :
  (sender e = None \/ sender e = Some "") -> email_from e = Some f ->
  local_identity e = f.
Proof.
  unfold local_identity. intros [-> | ->] ->; reflexivity.
Qed.

Lemma tally_no_empty_key (ks : list string) (n : nat) :
  ~ In "" ks -> ~ In ("", n) (tally ks).
Proof.
  intros H Hin. apply H. apply tally_keys. apply (in_map fst) in Hin. exact Hin.
Qed.

(** C10 as stated fails on a local record that has no [sender] but has an
    [email_from]: it is counted under its [email_from] in [bySender] and is
    an entry of the local senders ranking. (And the same record in
    [collective] is not part of the total.) *)
Lemma C10_email_from_counterexample :
  sender from_only = None
  /\ bySender_of [from_only] = [("b@example.org", 1%nat)]
  /\ charts (fst (renderCharts [from_only] [] blank)) threats
     = Some (Series [("b@example.org", 1%nat)])
  /\ In ("b@example.org", 1%nat) (top7 (bySender_of [from_only]))
  /\ totalScansEl (fst (updateDashboard [] [from_only] blank)) = 0%nat.
Proof.
  repeat split; try reflexivity. left. reflexivity.
Qed.

(** C10, amended: a record of [scanHistory] whose [sender] is absent or
    empty is counted in [total] and in exactly one bucket of the histogram;
    its identity is [email_from]: when that is absent or empty too, the
    record adds nothing to [bySender]; otherwise, [email_from] being no
    inherited name (the name of a property of [Object.prototype]), it adds
    one to the count of [email_from]. In [collective] only [sender] is
    looked at: such a record adds nothing to [collSenders], whatever its
    [email_from]. The empty string is never an entry of either ranked
    list. *)
Theorem C10_records_without_sender (l1 l2 : list ScanRecord) (e : ScanRecord) :
  (sender e = None \/ sender e = Some "") ->
  (* counted in totalScans and the histogram *)
  (forall m m', computeMetrics (l1 ++ e :: l2) = Ok m ->
                computeMetrics (l1 ++ l2) = Ok m' ->
     Metrics.total m = S (Metrics.total m')
     /\ (Metrics.high m + Metrics.med m + Metrics.low m
         = S (Metrics.high m' + Metrics.med m' + Metrics.low m'))%nat)
  (* local: no identity at all, no count *)
  /\ ((email_from e = None \/ email_from e = Some "") ->
      bySender_of (l1 ++ e :: l2) = bySender_of (l1 ++ l2))
  (* local: the identity falls back to email_from *)
  /\ (forall f, email_from e = Some f -> f <> "" -> inherited f = false ->
      local_identity e = f
      /\ bySender_of (l1 ++ e :: l2)
         = fold_left (fun o x => bySender_step x o) l2 (bump f (bySender_of l1))
      /\ lookup f (bySender_of (l1 ++ [e]))
         = Some (S (count_or_0 (lookup f (bySender_of l1)))))
  (* collective: only sender counts *)
  /\ collSenders_of (l1 ++ e :: l2) = collSenders_of (l1 ++ l2)
  (* the empty identity is never ranked *)
  /\ (forall sh n, ~ In ("", n) (top7 (bySender_of sh)))
  /\ (forall coll n, ~ In ("", n) (top7 (collSenders_of coll))).
Proof.
  intro Hs. split; [|split; [|split; [|split; [|split]]]].
  - intros m m' Hm Hm'.
    destruct (computeMetrics_histogram _ _ Hm) as [Hh Ht].
    destruct (computeMetrics_histogram _ _ Hm') as [Hh' Ht'].
    rewrite Ht, Ht', !length_app. simpl. split; [lia|].
    pose proof (histogram_sum (l1 ++ e :: l2)) as S1.
    pose proof (histogram_sum (l1 ++ l2)) as S2.
    rewrite <- Hh in S1. rewrite <- Hh' in S2.
    rewrite S1, S2, !length_app. simpl. lia.
  - intro Hf. unfold bySender_of. apply fold_left_skip. intro o.
    unfold bySender_step. rewrite (local_identity_empty e Hs Hf). reflexivity.
  - intros f Hf Hne _. pose proof (local_identity_fallback e f Hs Hf) as Hid.
    apply String.eqb_neq in Hne.
    split; [exact Hid | split].
    + unfold bySender_of. rewrite fold_left_app. simpl.
      unfold bySender_step at 2. rewrite Hid, Hne. reflexivity.
    + unfold bySender_of. rewrite fold_left_app. simpl.
      unfold bySender_step at 1. rewrite Hid, Hne.
      rewrite lookup_bump, String.eqb_refl. reflexivity.
  - unfold collSenders_of. apply fold_left_skip. intro o.
    unfold collSenders_step. destruct Hs as [-> | ->]; reflexivity.
  - intros sh n H. apply top7_incl in H. rewrite bySender_of_tally in H.
    revert H. apply tally_no_empty_key. unfold local_ids.
    rewrite filter_In. intros [_ H]. discriminate.
  - intros coll n H. apply top7_incl in H. rewrite collSenders_of_tally in H.
    revert H. apply tally_no_empty_key. unfold collective_ids.
    rewrite filter_In. intros [_ H]. discriminate.
Qed.

(** C10, amended, on a record with no field at all and on a record with
    only [email_from]. *)
Lemma C10_records_without_sender_witness :
  bySender_of [scan "a@example.org" 8 "2025-01-01T00:00:00" "spf_fail"; bare]
  = bySender_of [scan "a@example.org" 8 "2025-01-01T00:00:00" "spf_fail"]
  /\ local_identity from_only = "b@example.org"
  /\ collSenders_of [from_only] = [].
Proof.
  split; [|split].
  - apply (proj1 (proj2 (C10_records_without_sender
             [scan "a@example.org" 8 "2025-01-01T00:00:00" "spf_fail"] [] bare
             (or_introl eq_refl)))).
    left. reflexivity.
  - apply (proj1 (proj2 (proj2 (C10_records_without_sender [] [] from_only
             (or_introl eq_refl)))) "b@example.org" eq_refl).
    + discriminate.
    + reflexivity.
  - apply (proj1 (proj2 (proj2 (proj2 (C10_records_without_sender [] [] from_only
             (or_introl eq_refl)))))).
Defined.

(** * Further properties of the code *)

Import Derived.

(** ** Rounding *)

Lemma Math_round_bounds (x : Q) :
  inject_Z (Math_round x) <= x + (1 # 2)
  /\ x + (1 # 2) < inject_Z (Math_round x) + 1.
Proof.
  unfold Math_round. split; [apply Qfloor_le|].
  pose proof (Qlt_floor (x + (1 # 2))) as H.
  rewrite inject_Z_plus in H. exact H.
Qed.

Lemma Math_round_lt (x : Q) (k : Z) :
  (Math_round x < k)%Z <-> x < inject_Z k - (1 # 2).
Proof.
  destruct (Math_round_bounds x) as [Hl Hu]. split; intro H.
  - assert (Hk : (Math_round x + 1 <= k)%Z) by lia.
    rewrite Zle_Qle, inject_Z_plus in Hk. change (inject_Z 1) with 1 in Hk. lra.
  - rewrite Zlt_Qlt. lra.
Qed.

Lemma Math_round_le (x : Q) (k : Z) :
  (k <= Math_round x)%Z <-> inject_Z k - (1 # 2) <= x.
Proof.
  pose proof (Math_round_lt x k) as H. split; intro H'.
  - apply Qnot_lt_le. intro C. apply H in C. lia.
  - destruct (Z_lt_le_dec (Math_round x) k) as [C|C]; [|exact C].
    apply H in C. lra.
Qed.

Lemma Math_round_Z (z : Z) : Math_round (inject_Z z) = z.
Proof.
  apply Z.le_antisymm.
  - apply Z.lt_succ_r. apply Math_round_lt. rewrite <- Z.add_1_r, inject_Z_plus.
    change (inject_Z 1) with 1. lra.
  - apply Math_round_le. lra.
Qed.

Lemma Math_round_proper (a b : Q) : a == b -> Math_round a = Math_round b.
Proof.
  intro E. apply Z.le_antisymm; apply Math_round_le.
  - destruct (Math_round_bounds a). lra.
  - destruct (Math_round_bounds b). lra.
Qed.

Lemma fmt_proper (a b : Q) : a == b -> fmt a == fmt b.
Proof.
  intro E. unfold fmt.
  rewrite (Math_round_proper (a * 100) (b * 100)) by (rewrite E; reflexivity).
  reflexivity.
Qed.

Lemma Math_round_mono (a b : Q) : a <= b -> (Math_round a <= Math_round b)%Z.
Proof.
  intro H. apply Math_round_le. destruct (Math_round_bounds a). lra.
Qed.

Lemma fmt_mono (n m : Q) : n <= m -> fmt n <= fmt m.
Proof.
  intro H. unfold fmt.
  assert (Hz : (Math_round (n * 100) <= Math_round (m * 100))%Z)
    by (apply Math_round_mono; lra).
  rewrite Zle_Qle in Hz.
  apply Qle_shift_div_l; [lra|].
  setoid_replace (inject_Z (Math_round (n * 100)) / 100 * 100)
    with (inject_Z (Math_round (n * 100))) by field. exact Hz.
Qed.

Lemma fmt_Z (z : Z) : fmt (inject_Z z) == inject_Z z.
Proof.
  unfold fmt.
  rewrite (Math_round_proper (inject_Z z * 100) (inject_Z (z * 100)))
    by (rewrite inject_Z_mult; reflexivity).
  rewrite Math_round_Z, inject_Z_mult. change (inject_Z 100) with 100. field.
Qed.

(** ** The high-risk percentage *)

Lemma computeMetrics_highPct (sh : list ScanRecord) (m : Metrics.t) :
  computeMetrics sh = Ok m ->
  (Metrics.high m <= Metrics.total m)%nat
  /\ Metrics.highPct m =
       match Metrics.total m with
       | O => 0
       | _ => fmt (inject_Z (Z.of_nat (Metrics.high m))
                   / inject_Z (Z.of_nat (Metrics.total m)) * 100)
       end.
Proof.
  unfold computeMetrics.
  destruct (forEach perDay_step sh []); simpl; [|discriminate].
  destruct (forEach byRule_step sh []); simpl; [|discriminate].
  intros [= <-]. simpl. split; [apply filter_length_le | reflexivity].
Qed.

Lemma ratio_bounds (h t : nat) :
  (h <= t)%nat -> (0 < t)%nat ->
  0 <= inject_Z (Z.of_nat h) / inject_Z (Z.of_nat t) * 100
  /\ inject_Z (Z.of_nat h) / inject_Z (Z.of_nat t) * 100 <= 100.
Proof.
  intros Hle Ht.
  assert (H0 : 0 <= inject_Z (Z.of_nat h))
    by (change 0 with (inject_Z 0); rewrite <- Zle_Qle; lia).
  assert (H1 : inject_Z (Z.of_nat h) <= inject_Z (Z.of_nat t))
    by (rewrite <- Zle_Qle; lia).
  assert (H2 : 0 < inject_Z (Z.of_nat t))
    by (change 0 with (inject_Z 0); rewrite <- Zlt_Qlt; lia).
  assert (Ha : 0 <= inject_Z (Z.of_nat h) / inject_Z (Z.of_nat t))
    by (apply Qle_shift_div_l; [exact H2 | lra]).
  assert (Hb : inject_Z (Z.of_nat h) / inject_Z (Z.of_nat t) <= 1)
    by (apply Qle_shift_div_r; [exact H2 | lra]).
  split; lra.
Qed.

(** X2: the high-risk percentage [computeMetrics] returns lies between 0
    and 100; it is 0 for an empty history and when no record is High, and
    100 when every record of a history that is not empty is High. *)
Theorem X2_highPct_is_a_percentage (sh : list ScanRecord) (m : Metrics.t) :
  computeMetrics sh = Ok m ->
  0 <= Metrics.highPct m /\ Metrics.highPct m <= 100
  /\ (sh = [] -> Metrics.highPct m = 0)
  /\ (Metrics.high m = 0%nat -> Metrics.highPct m == 0)
  /\ (sh <> [] -> Metrics.high m = Metrics.total m -> Metrics.highPct m == 100).
Proof.
  intro Hm.
  destruct (computeMetrics_highPct sh m Hm) as [Hle Hp].
  destruct (computeMetrics_histogram sh m Hm) as [_ Ht].
  destruct (Metrics.total m) as [|t] eqn:Et.
  - rewrite Hp. assert (sh = []) by (destruct sh; [reflexivity | discriminate]).
    repeat split; try lra; try reflexivity; intros; try contradiction; lra.
  - assert (Hne : sh <> []) by (intros ->; discriminate).
    destruct (ratio_bounds (Metrics.high m) (S t) Hle ltac:(lia)) as [R0 R1].
    rewrite Hp.
    pose proof (fmt_mono _ _ R0) as F0. pose proof (fmt_mono _ _ R1) as F1.
    rewrite (fmt_Z 0) in F0. rewrite (fmt_Z 100) in F1.
    change (inject_Z 0) with 0 in F0. change (inject_Z 100) with 100 in F1.
    split; [exact F0 | split; [exact F1 | split; [|split]]].
    + intros ->. discriminate.
    + intro Hh. rewrite Hh.
      assert (Hnz : ~ inject_Z (Z.of_nat (S t)) == 0)
        by (change 0 with (inject_Z 0); rewrite inject_Z_injective; lia).
      transitivity (fmt (inject_Z 0)); [apply fmt_proper | apply (fmt_Z 0)].
      change (inject_Z (Z.of_nat 0)) with 0. change (inject_Z 0) with 0.
      field. exact Hnz.
    + intros _ Hh. rewrite Hh.
      assert (Hnz : ~ inject_Z (Z.of_nat (S t)) == 0)
        by (change 0 with (inject_Z 0); rewrite inject_Z_injective; lia).
      transitivity (fmt (inject_Z 100)); [apply fmt_proper | apply (fmt_Z 100)].
      change (inject_Z 100) with 100. field. exact Hnz.
Qed.

Lemma X2_highPct_is_a_percentage_witness :
  computeMetrics [scan "a@example.org" 8 "2025-01-01T00:00:00" "spf_fail";
                  scan "b@example.org" 2 "2025-01-01T00:00:00" ""] =
    Ok {| Metrics.high := 1; Metrics.med := 0; Metrics.low := 1;
          Metrics.perDay := [("2025-01-01", 2%nat)];
          Metrics.bySender := [("a@example.org", 1%nat); ("b@example.org", 1%nat)];
          Metrics.byRule := [("spf_fail", 1%nat)];
          Metrics.quarantine := 0; Metrics.total := 2;
          Metrics.highPct := fmt (inject_Z 1 / inject_Z 2 * 100) |}
  /\ fmt (inject_Z 1 / inject_Z 2 * 100) <= 100.
Proof.
  assert (H : computeMetrics [scan "a@example.org" 8 "2025-01-01T00:00:00" "spf_fail";
                  scan "b@example.org" 2 "2025-01-01T00:00:00" ""] =
    Ok {| Metrics.high := 1; Metrics.med := 0; Metrics.low := 1;
          Metrics.perDay := [("2025-01-01", 2%nat)];
          Metrics.bySender := [("a@example.org", 1%nat); ("b@example.org", 1%nat)];
          Metrics.byRule := [("spf_fail", 1%nat)];
          Metrics.quarantine := 0; Metrics.total := 2;
          Metrics.highPct := fmt (inject_Z 1 / inject_Z 2 * 100) |}) by reflexivity.
  split; [exact H|].
  exact (proj1 (proj2 (X2_highPct_is_a_percentage _ _ H))).
Defined.

(** ** The AI risk label *)

(** X3: the label follows the rounded hybrid average, so its boundaries on
    the average itself are 3.5 and 6.5: Safe below 3.5, Medium from 3.5 up
    to but not including 6.5, High Risk from 6.5 on; the page shows the
    label of the very number it shows as overall score. *)
Theorem X3_label_boundaries_on_the_average (x : Q) :
  (label_of (Math_round x) = Safe <-> x < (7 # 2))
  /\ (label_of (Math_round x) = Medium <-> (7 # 2) <= x /\ x < (13 # 2))
  /\ (label_of (Math_round x) = HighRisk <-> (13 # 2) <= x)
  /\ (forall sh p,
        aiOverallScoreEl (fst (updateAIMetrics sh p))
          = Math_round (aiHYAvg (fst (updateAIMetrics sh p)))
        /\ aiRiskLabelEl (fst (updateAIMetrics sh p))
          = label_of (aiOverallScoreEl (fst (updateAIMetrics sh p)))).
Proof.
  pose proof (Math_round_lt x 4) as H4. pose proof (Math_round_lt x 7) as H7.
  change (inject_Z 4 - (1 # 2)) with (4 - (1 # 2)) in H4.
  change (inject_Z 7 - (1 # 2)) with (7 - (1 # 2)) in H7.
  unfold label_of.
  destruct (Math_round x <? 4)%Z eqn:E4; [apply Z.ltb_lt in E4 | apply Z.ltb_ge in E4];
    (destruct (Math_round x <? 7)%Z eqn:E7; [apply Z.ltb_lt in E7 | apply Z.ltb_ge in E7]).
  - apply H4 in E4. repeat split; intros; try discriminate; try lra.
  - lia.
  - apply H7 in E7.
    assert (~ x < 4 - (1 # 2)) by (intro C; apply H4 in C; lia).
    repeat split; intros; try discriminate; try lra.
  - assert (~ x < 4 - (1 # 2)) by (intro C; apply H4 in C; lia).
    assert (~ x < 7 - (1 # 2)) by (intro C; apply H7 in C; lia).
    repeat split; intros; try discriminate; try lra.
Qed.

(** ** The risk ring of the React dashboard *)

Lemma Math_max_spec (a b : Q) :
  a <= Card.Math_max a b /\ b <= Card.Math_max a b /\ (Card.Math_max a b = a \/ Card.Math_max a b = b).
Proof.
  unfold Card.Math_max. destruct (Qle_bool a b) eqn:E.
  - apply Qle_bool_iff in E. repeat split; auto; lra.
  - assert (~ a <= b) by (rewrite <- Qle_bool_iff; congruence).
    repeat split; auto; lra.
Qed.

Lemma Math_min_spec (a b : Q) :
  Card.Math_min a b <= a /\ Card.Math_min a b <= b /\ (Card.Math_min a b = a \/ Card.Math_min a b = b).
Proof.
  unfold Card.Math_min. destruct (Qle_bool a b) eqn:E.
  - apply Qle_bool_iff in E. repeat split; auto; lra.
  - assert (~ a <= b) by (rewrite <- Qle_bool_iff; congruence).
    repeat split; auto; lra.
Qed.

Lemma risk_range (value threatIndex : option Q) :
  0 <= Card.risk value threatIndex /\ Card.risk value threatIndex <= 100.
Proof.
  unfold Card.risk.
  destruct (Math_max_spec (Card.finalValue value threatIndex) 0) as [_ [H0 _]].
  destruct (Math_min_spec (Card.Math_max (Card.finalValue value threatIndex) 0) 100)
    as [_ [H1 [E | E]]].
  - rewrite E in *. split; lra.
  - rewrite E. split; lra.
Qed.

Lemma risk_cases (value threatIndex : option Q) :
  (Card.finalValue value threatIndex <= 0 -> Card.risk value threatIndex == 0)
  /\ (0 <= Card.finalValue value threatIndex ->
      Card.finalValue value threatIndex <= 100 ->
      Card.risk value threatIndex == Card.finalValue value threatIndex)
  /\ (100 <= Card.finalValue value threatIndex -> Card.risk value threatIndex == 100).
Proof.
  unfold Card.risk, Card.Math_min, Card.Math_max.
  set (v := Card.finalValue value threatIndex).
  destruct (Qle_bool v 0) eqn:E0.
  - apply Qle_bool_iff in E0. change (Qle_bool 0 100) with true. cbv iota.
    repeat split; intros; lra.
  - assert (~ v <= 0) by (rewrite <- Qle_bool_iff; congruence).
    destruct (Qle_bool v 100) eqn:E1.
    + apply Qle_bool_iff in E1. repeat split; intros; lra.
    + assert (~ v <= 100) by (rewrite <- Qle_bool_iff; congruence).
      repeat split; intros; lra.
Qed.

Lemma shown_of_risk (value threatIndex : option Q) (z : Z) :
  Card.risk value threatIndex == inject_Z z -> Card.shown value threatIndex = z.
Proof.
  intro H. unfold Card.shown.
  rewrite (Math_round_proper _ _ H). apply Math_round_Z.
Qed.

(** X4: the risk ring clamps what it is given. With [v] the value it works
    on (a numeric [threatIndex], 0 included, and [value || 0] only when no
    [threatIndex] is passed): the risk is 0 when [v <= 0], [v] itself when
    [0 <= v <= 100] and 100 when [v >= 100]; the ring is then empty (dash
    offset 283, 0 %) below the range and full (dash offset 0, 100 %) above
    it; in every case the risk is between 0 and 100, the dash offset
    between 0 and 283 and the percentage shown an integer between 0 and
    100. On the dashboard page the ring shows the rounded [threat_index]
    clamped to 0..100, and 0 when [threat_index] is missing. *)
Theorem X4_risk_ring_is_clamped (value threatIndex : option Q) :
  0 <= Card.risk value threatIndex /\ Card.risk value threatIndex <= 100
  /\ 0 <= Card.strokeDashoffset value threatIndex
  /\ Card.strokeDashoffset value threatIndex <= 283
  /\ (0 <= Card.shown value threatIndex <= 100)%Z
  /\ (Card.finalValue value threatIndex <= 0 ->
        Card.risk value threatIndex == 0
        /\ Card.strokeDashoffset value threatIndex == 283
        /\ Card.shown value threatIndex = 0%Z)
  /\ (0 <= Card.finalValue value threatIndex ->
      Card.finalValue value threatIndex <= 100 ->
        Card.risk value threatIndex == Card.finalValue value threatIndex)
  /\ (100 <= Card.finalValue value threatIndex ->
        Card.risk value threatIndex == 100
        /\ Card.strokeDashoffset value threatIndex == 0
        /\ Card.shown value threatIndex = 100%Z)
  /\ (forall t, threatIndex = Some t -> Card.finalValue value threatIndex = t)
  /\ (threatIndex = None -> Card.finalValue value threatIndex = or_zero value)
  /\ (forall t, Card.page_card_shown (Some t)
                = Z.min 100 (Z.max 0 (Math_round t)))
  /\ Card.page_card_shown None = 0%Z.
Proof.
  destruct (risk_range value threatIndex) as [H0 H1].
  destruct (risk_cases value threatIndex) as [Clo [Cmid Chi]].
  assert (Hshown : forall v t, (0 <= Card.shown v t <= 100)%Z).
  { intros v t. destruct (risk_range v t) as [A B]. unfold Card.shown. split.
    - apply Math_round_le. change (inject_Z 0) with 0. lra.
    - apply Z.lt_succ_r. apply Math_round_lt.
      change (inject_Z (Z.succ 100)) with 101. lra. }
  assert (Ho : forall v t, Card.strokeDashoffset v t
                           == 283 - (283 # 100) * Card.risk v t)
    by (intros v t; unfold Card.strokeDashoffset; field).
  split; [exact H0 | split; [exact H1|]].
  split; [rewrite Ho; lra|].
  split; [rewrite Ho; lra|].
  split; [apply Hshown|].
  split.
  { intro L. pose proof (Clo L) as R. split; [exact R | split].
    - rewrite Ho, R. reflexivity.
    - apply shown_of_risk. exact R. }
  split; [exact Cmid|].
  split.
  { intro L. pose proof (Chi L) as R. split; [exact R | split].
    - rewrite Ho, R. reflexivity.
    - apply shown_of_risk. exact R. }
  split; [intros t ->; reflexivity|].
  split; [intros ->; reflexivity|].
  split; [|reflexivity].
  intro t. unfold Card.page_card_shown, Card.page_threatIndex.
  set (z := Math_round t).
  destruct (risk_cases None (Some (inject_Z z))) as [Zlo [Zmid Zhi]].
  cbn [Card.finalValue] in Zlo, Zmid, Zhi.
  destruct (Z_le_gt_dec z 0) as [L0 | G0].
  - rewrite Z.max_l, Z.min_r by lia. apply shown_of_risk. apply Zlo.
    change 0 with (inject_Z 0). rewrite <- Zle_Qle. exact L0.
  - destruct (Z_le_gt_dec 100 z) as [L1 | G1].
    + rewrite Z.max_r, Z.min_l by lia. apply shown_of_risk. apply Zhi.
      change 100 with (inject_Z 100). rewrite <- Zle_Qle. exact L1.
    + rewrite Z.max_r, Z.min_r by lia. apply shown_of_risk. apply Zmid.
      * change 0 with (inject_Z 0). rewrite <- Zle_Qle. lia.
      * change 100 with (inject_Z 100). rewrite <- Zle_Qle. lia.
Qed.

(** ** The top of a ranking *)



(** ** What the sender counters add up to *)

Lemma sum_counts_bump (k : string) (o : counts) :
  sum_counts (bump k o) = S (sum_counts o).
Proof.
  unfold sum_counts. induction o as [|[k' n] o IH]; simpl; [reflexivity|].
  destruct (k' =? k); simpl; [reflexivity|]. rewrite IH. lia.
Qed.

Lemma sum_counts_fold (ks : list string) (o : counts) :
  sum_counts (fold_left (fun o k => bump k o) ks o)
  = (sum_counts o + List.length ks)%nat.
Proof.
  revert o. induction ks as [|k ks IH]; intro o; simpl; [lia|].
  rewrite IH, sum_counts_bump. lia.
Qed.

Lemma sum_counts_tally (ks : list string) : sum_counts (tally ks) = List.length ks.
Proof. unfold tally. rewrite sum_counts_fold. reflexivity. Qed.

Lemma filter_map_length_le {A B} (f : A -> B) (p : B -> bool) (l : list A) :
  (List.length (filter p (map f l)) <= List.length l)%nat.
Proof.
  eapply Nat.le_trans; [apply filter_length_le|]. rewrite length_map. lia.
Qed.

(** X7: let the identities met be no inherited names. In the two sender
    counters a key's count is the number of records counted under that
    identity, a key that was never met is absent, no key occurs twice, and
    the counts add up to the number of records that have an identity: never
    more than the number of records. *)
Theorem X7_sender_counters_count_records (sh coll : list ScanRecord) (k : string) :
  own_keys (local_ids sh) = true ->
  own_keys (collective_ids coll) = true ->
  lookup k (bySender_of sh)
    = match count_occ string_dec (local_ids sh) k with
      | O => None
      | S c => Some (S c)
      end
  /\ lookup k (collSenders_of coll)
    = match count_occ string_dec (collective_ids coll) k with
      | O => None
      | S c => Some (S c)
      end
  /\ NoDup (map fst (bySender_of sh)) /\ NoDup (map fst (collSenders_of coll))
  /\ sum_counts (bySender_of sh) = List.length (local_ids sh)
  /\ sum_counts (collSenders_of coll) = List.length (collective_ids coll)
  /\ (sum_counts (bySender_of sh) <= List.length sh)%nat
  /\ (sum_counts (collSenders_of coll) <= List.length coll)%nat.
Proof.
  intros _ _.
  rewrite bySender_of_tally, collSenders_of_tally, !sum_counts_tally.
  repeat split.
  - apply tally_lookup.
  - apply tally_lookup.
  - apply tally_NoDup.
  - apply tally_NoDup.
  - apply filter_map_length_le.
  - apply filter_map_length_le.
Qed.

Lemma X7_sender_counters_count_records_witness :
  own_keys (local_ids [scan "a@example.org" 8 "2025-01-01T00:00:00" "spf_fail";
                       from_only; bare;
                       scan "a@example.org" 2 "2025-01-02T00:00:00" ""]) = true
  /\ lookup "a@example.org"
       (bySender_of [scan "a@example.org" 8 "2025-01-01T00:00:00" "spf_fail";
                     from_only; bare;
                     scan "a@example.org" 2 "2025-01-02T00:00:00" ""])
     = Some 2%nat.
Proof.
  split; [reflexivity|].
  exact (proj1 (X7_sender_counters_count_records
    [scan "a@example.org" 8 "2025-01-01T00:00:00" "spf_fail"; from_only; bare;
     scan "a@example.org" 2 "2025-01-02T00:00:00" ""]
    [from_only] "a@example.org" eq_refl eq_refl)).
Defined.

(** ** The per-day counter *)

Lemma split_hd (sep : ascii) (s : string) :
  exists rest, s = (hd "" (split sep s) ++ rest)%string
               /\ contains sep (hd "" (split sep s)) = false
               /\ (rest = "" \/ exists r, rest = String sep r).
Proof.
  induction s as [|c s IH]; simpl.
  - exists "". auto.
  - destruct (Ascii.eqb c sep) eqn:E.
    + apply Ascii.eqb_eq in E. subst c. exists (String sep s). simpl.
      repeat split; eauto.
    + destruct IH as [rest [Hs [Hc Hr]]].
      destruct (split sep s) as [|h t]; simpl in *.
      * exists s. rewrite E. repeat split; auto.
        subst s. simpl. exact Hr.
      * exists rest. rewrite E, Hc. simpl. repeat split; auto.
        f_equal. exact Hs.
Qed.

Lemma perDay_step_day (e : ScanRecord) (o o' : counts) :
  perDay_step e o = Ok o' ->
  o' = if day_of e =? "" then o else bump (day_of e) o.
Proof.
  unfold perDay_step, date_of, day_of, or_else.
  destruct (timestamp e) as [ | | b | q | s | items | fields ]; simpl;
    try (intros [= <-]; reflexivity); try discriminate.
  - destruct b; simpl; [discriminate | intros [= <-]; reflexivity].
  - destruct (Qeq_bool q 0); simpl; [intros [= <-]; reflexivity | discriminate].
  - destruct (s =? "") eqn:E; simpl; intros [= <-]; [|reflexivity].
    apply String.eqb_eq in E. subst s. reflexivity.
Qed.

Lemma perDay_tally_from (sh : list ScanRecord) (seen : list string) (o : counts) :
  forEach perDay_step sh (tally seen) = Ok o -> o = tally (seen ++ days sh).
Proof.
  revert seen. induction sh as [|e sh IH]; intros seen H; simpl in H.
  - injection H as <-. unfold days. simpl. rewrite app_nil_r. reflexivity.
  - destruct (perDay_step e (tally seen)) as [o1|] eqn:E; simpl in H; [|discriminate].
    apply perDay_step_day in E. unfold days. simpl.
    destruct (day_of e =? "") eqn:D; simpl.
    + subst o1. apply IH, H.
    + assert (E1 : o1 = tally (seen ++ [day_of e]))
        by (subst o1; unfold tally; rewrite fold_left_app; reflexivity).
      rewrite E1 in H. rewrite (IH _ H). unfold days.
      rewrite <- app_assoc. reflexivity.
Qed.

(** X8: when the [perDay] pass completes and no day is an inherited name,
    the counter is the tally of the records' days: a record's day is the
    part of its timestamp before the first [T] and contains no [T]; a
    record whose day is empty is not counted, so the empty string is never
    a key; the counts add up to the number of dated records, at most the
    number of records. *)
Theorem X8_perDay_counts_dated_records (sh : list ScanRecord) (o : counts) :
  forEach perDay_step sh [] = Ok o ->
  own_keys (days sh) = true ->
  o = tally (days sh)
  /\ ~ In "" (map fst o)
  /\ sum_counts o = List.length (days sh)
  /\ (sum_counts o <= List.length sh)%nat
  /\ (forall d, lookup d o = match count_occ string_dec (days sh) d with
                             | O => None
                             | S c => Some (S c)
                             end)
  /\ (forall e s, In e sh -> timestamp e = Str s ->
        exists rest, s = (day_of e ++ rest)%string
                     /\ contains "T"%char (day_of e) = false
                     /\ (rest = "" \/ exists r, rest = String "T"%char r)).
Proof.
  intros H _. apply (perDay_tally_from sh []) in H. simpl in H. subst o.
  split; [reflexivity | split; [|split; [|split; [|split]]]].
  - rewrite tally_keys. unfold days. rewrite filter_In. intros [_ C]. discriminate.
  - apply sum_counts_tally.
  - rewrite sum_counts_tally. apply filter_map_length_le.
  - intro d. apply tally_lookup.
  - intros e s _ Hs. unfold day_of. rewrite Hs. apply split_hd.
Qed.

Lemma X8_perDay_counts_dated_records_witness :
  forEach perDay_step
    [scan "a@example.org" 8 "2025-01-01T00:00:00" "spf_fail"; bare;
     scan "b@example.org" 2 "2025-01-01T09:30:00" ""] []
    = Ok [("2025-01-01", 2%nat)]
  /\ [("2025-01-01", 2%nat)]
     = tally (days [scan "a@example.org" 8 "2025-01-01T00:00:00" "spf_fail"; bare;
                    scan "b@example.org" 2 "2025-01-01T09:30:00" ""]).
Proof.
  split; [reflexivity|].
  exact (proj1 (X8_perDay_counts_dated_records
    [scan "a@example.org" 8 "2025-01-01T00:00:00" "spf_fail"; bare;
     scan "b@example.org" 2 "2025-01-01T09:30:00" ""]
    [("2025-01-01", 2%nat)] eq_refl eq_refl)).
Defined.

(** ** The rule tokens *)

Lemma split_no_sep (sep : ascii) (s p : string) :
  In p (split sep s) -> contains sep p = false.
Proof.
  revert p. induction s as [|c s IH]; simpl; intros p H.
  - destruct H as [<- | []]. reflexivity.
  - destruct (Ascii.eqb c sep) eqn:E.
    + destruct H as [<- | H]; [reflexivity | apply IH, H].
    + destruct (split sep s) as [|h t].
      * destruct H as [<- | []]. simpl. rewrite E. reflexivity.
      * destruct H as [<- | H].
        -- simpl. rewrite E. apply IH. left. reflexivity.
        -- apply IH. right. exact H.
Qed.

Lemma skip_space_length (s r : string) :
  skip_space s = Some r -> (String.length r < String.length s)%nat.
Proof.
  destruct s as [|c1 [|c2 [|c3 r3]]]; simpl; try discriminate.
  - destruct (is_space c1); [|discriminate]. intros [= <-]. simpl. lia.
  - destruct (is_space c1); [intros [= <-]; simpl; lia|].
    destruct (is_space2 c1 c2); [|discriminate]. intros [= <-]. simpl. lia.
  - destruct (is_space c1); [intros [= <-]; simpl; lia|].
    destruct (is_space2 c1 c2); [intros [= <-]; simpl; lia|].
    destruct (is_space3 c1 c2 c3); [|discriminate]. intros [= <-]. simpl. lia.
Qed.

Lemma trimStart_skip (s : string) :
  trimStart s = match skip_space s with
                | Some r => trimStart r
                | None => s
                end.
Proof.
  destruct s as [|c1 [|c2 [|c3 r3]]]; simpl; try reflexivity.
  - destruct (is_space c1); reflexivity.
  - destruct (is_space c1); [reflexivity|].
    destruct (is_space2 c1 c2); reflexivity.
  - destruct (is_space c1); [reflexivity|].
    destruct (is_space2 c1 c2); [reflexivity|].
    destruct (is_space3 c1 c2 c3); reflexivity.
Qed.

Lemma skip_space_app (s r t : string) :
  skip_space s = Some r -> skip_space (s ++ t)%string = Some (r ++ t)%string.
Proof.
  destruct s as [|c1 [|c2 [|c3 r3]]]; simpl; try discriminate.
  - destruct (is_space c1); [|discriminate]. intros [= <-]. reflexivity.
  - destruct (is_space c1); [intros [= <-]; reflexivity|].
    destruct (is_space2 c1 c2); [|discriminate]. intros [= <-]. reflexivity.
  - destruct (is_space c1); [intros [= <-]; reflexivity|].
    destruct (is_space2 c1 c2); [intros [= <-]; reflexivity|].
    destruct (is_space3 c1 c2 c3); [|discriminate]. intros [= <-]. reflexivity.
Qed.

Lemma skip_space_suffix (s r : string) :
  skip_space s = Some r -> exists w, s = (w ++ r)%string.
Proof.
  destruct s as [|c1 [|c2 [|c3 r3]]]; simpl; try discriminate.
  - destruct (is_space c1); [|discriminate]. intros [= <-].
    exists (String c1 ""). reflexivity.
  - destruct (is_space c1); [intros [= <-]; exists (String c1 ""); reflexivity|].
    destruct (is_space2 c1 c2); [|discriminate]. intros [= <-].
    exists (String c1 (String c2 "")). reflexivity.
  - destruct (is_space c1); [intros [= <-]; exists (String c1 ""); reflexivity|].
    destruct (is_space2 c1 c2);
      [intros [= <-]; exists (String c1 (String c2 "")); reflexivity|].
    destruct (is_space3 c1 c2 c3); [|discriminate]. intros [= <-].
    exists (String c1 (String c2 (String c3 ""))). reflexivity.
Qed.

(** Induction on the length of a string. *)
Lemma string_length_ind (P : string -> Prop) :
  (forall s, (forall r, (String.length r < String.length s)%nat -> P r) -> P s) ->
  forall s, P s.
Proof.
  intros H s.
  assert (G : forall n r, (String.length r < n)%nat -> P r).
  { induction n as [|n IH]; intros r Hr; [lia|].
    apply H. intros r' Hr'. apply IH. lia. }
  apply (G (S (String.length s))). lia.
Qed.

Lemma trimStart_starts (s : string) : starts_space (trimStart s) = false.
Proof.
  induction s as [s IH] using string_length_ind.
  rewrite trimStart_skip. destruct (skip_space s) as [r|] eqn:E.
  - apply IH. apply skip_space_length, E.
  - unfold starts_space. rewrite E. reflexivity.
Qed.

Lemma trimEnd_prefix (s : string) :
  exists t, s = (trimEnd s ++ t)%string /\ trimStart t = "".
Proof.
  induction s as [|c r IH].
  - exists "". split; reflexivity.
  - cbn [trimEnd]. destruct (trimStart (String c r) =? "") eqn:E.
    + apply String.eqb_eq in E. exists (String c r). split; [reflexivity | exact E].
    + destruct IH as [t [H1 H2]]. exists t. split; [|exact H2].
      simpl. rewrite <- H1. reflexivity.
Qed.

Lemma trimEnd_starts (s : string) :
  starts_space s = false -> starts_space (trimEnd s) = false.
Proof.
  intro H. destruct (trimEnd_prefix s) as [t [H1 _]].
  unfold starts_space in *.
  destruct (skip_space (trimEnd s)) as [r|] eqn:E; [|reflexivity].
  rewrite H1, (skip_space_app _ _ t E) in H. discriminate.
Qed.

Lemma trimEnd_ends (s : string) : ends_space (trimEnd s) = false.
Proof.
  induction s as [|c r IH]; [reflexivity|].
  cbn [trimEnd]. destruct (trimStart (String c r) =? "") eqn:E; [reflexivity|].
  cbn [ends_space].
  destruct (skip_space (String c (trimEnd r))) as [[|c' r']|] eqn:K; try exact IH.
  exfalso. apply String.eqb_neq in E. apply E.
  destruct (trimEnd_prefix r) as [t [H1 H2]].
  rewrite H1 at 1.
  change (String c (trimEnd r ++ t)) with (String c (trimEnd r) ++ t)%string.
  rewrite trimStart_skip, (skip_space_app _ _ t K). exact H2.
Qed.

Lemma contains_app (x : ascii) (a b : string) :
  contains x (a ++ b)%string = contains x a || contains x b.
Proof.
  induction a as [|c a IH]; [reflexivity|].
  simpl. rewrite IH. apply orb_assoc.
Qed.

Lemma contains_trimStart (x : ascii) (s : string) :
  contains x s = false -> contains x (trimStart s) = false.
Proof.
  induction s as [s IH] using string_length_ind. intro H.
  rewrite trimStart_skip. destruct (skip_space s) as [r|] eqn:E; [|exact H].
  apply IH; [apply skip_space_length, E|].
  destruct (skip_space_suffix _ _ E) as [w ->].
  rewrite contains_app in H. apply orb_false_elim in H. apply H.
Qed.

Lemma contains_trimEnd (x : ascii) (s : string) :
  contains x s = false -> contains x (trimEnd s) = false.
Proof.
  intro H. destruct (trimEnd_prefix s) as [t [H1 _]].
  rewrite H1, contains_app in H. apply orb_false_elim in H. apply H.
Qed.

Lemma rules_of_clean (mr : value) (rules : list string) :
  rules_of mr = Ok rules -> Forall clean_token rules.
Proof.
  unfold rules_of.
  destruct (call_split (or_else mr (Str "")) ","%char) as [parts|] eqn:E;
    simpl; [|discriminate].
  intros [= <-]. apply Forall_forall. intros k Hk.
  apply filter_In in Hk. destruct Hk as [Hk Hne].
  apply in_map_iff in Hk. destruct Hk as [p [<- Hp]].
  assert (Hc : contains ","%char p = false).
  { destruct (or_else mr (Str "")); try discriminate.
    injection E as <-. eapply split_no_sep, Hp. }
  unfold clean_token, trim. repeat split.
  - intro C. unfold trim in Hne. rewrite C in Hne. discriminate.
  - apply contains_trimEnd, contains_trimStart, Hc.
  - apply trimEnd_starts, trimStart_starts.
  - apply trimEnd_ends.
Qed.

Lemma rule_tokens_from (sh : list ScanRecord) (seen ks : list string) :
  forEach (fun e seen => bind (rules_of (matched_rules e))
                              (fun rules => Ok (seen ++ rules))) sh seen = Ok ks ->
  Forall clean_token seen -> Forall clean_token ks.
Proof.
  revert seen. induction sh as [|e sh IH]; intros seen H Hs; simpl in H.
  - injection H as <-. exact Hs.
  - destruct (rules_of (matched_rules e)) as [rules|] eqn:E; simpl in H; [|discriminate].
    apply (IH _ H). apply Forall_app. split; [exact Hs|].
    eapply rules_of_clean, E.
Qed.

(** X9: when the [byRule] pass completes and no token is an inherited
    name, every key of the counter is a clean token: not empty, without a
    comma, without white space at either end; the counter is the tally of
    the tokens met and its counts add up to their number; a record whose
    [matched_rules] is falsy gives no token at all. *)
Theorem X9_rule_keys_are_clean_tokens (sh : list ScanRecord) (o : counts)
  (ks : list string) :
  forEach byRule_step sh [] = Ok o ->
  rule_tokens sh = Ok ks ->
  own_keys ks = true ->
  (forall k n, In (k, n) o ->
     k <> "" /\ contains ","%char k = false
     /\ starts_space k = false /\ ends_space k = false /\ (0 < n)%nat)
  /\ o = tally ks
  /\ sum_counts o = List.length ks
  /\ (forall e, truthy (matched_rules e) = false ->
        rules_of (matched_rules e) = Ok []).
Proof.
  intros H Hk _. rewrite byRule_tally, Hk in H. simpl in H.
  injection H as <-.
  assert (Hc : Forall clean_token ks)
    by (apply (rule_tokens_from sh [] ks Hk); constructor).
  split; [|split; [reflexivity | split]].
  - intros k n Hin.
    destruct (tally_count ks k n Hin) as [_ Hn].
    apply (in_map fst) in Hin. simpl in Hin.
    apply (proj1 (tally_keys ks k)) in Hin.
    rewrite Forall_forall in Hc. destruct (Hc k Hin) as [A [B [C D]]].
    repeat split; assumption.
  - apply sum_counts_tally.
  - intros e He. unfold rules_of, or_else. rewrite He. reflexivity.
Qed.

(** X9 on a record whose rules are set off by ASCII and by no-break
    spaces. *)
Lemma X9_rule_keys_are_clean_tokens_witness :
  rule_tokens [scan "a@example.org" 8 "2025-01-01T00:00:00"
                 (" spf_fail ," ++ String "194" (String "160" "dkim_fail,, "))%string]
    = Ok ["spf_fail"; "dkim_fail"]
  /\ contains ","%char "dkim_fail" = false /\ ends_space "dkim_fail" = false.
Proof.
  split; [reflexivity|].
  destruct (proj1 (X9_rule_keys_are_clean_tokens
    [scan "a@example.org" 8 "2025-01-01T00:00:00"
       (" spf_fail ," ++ String "194" (String "160" "dkim_fail,, "))%string]
    [("spf_fail", 1%nat); ("dkim_fail", 1%nat)] ["spf_fail"; "dkim_fail"]
    eq_refl eq_refl eq_refl) "dkim_fail" 1%nat)
    as [_ [A [_ [B _]]]].
  - right. left. reflexivity.
  - split; assumption.
Defined.

(** ** The high-risk trend of the collective records *)

Lemma riskOverTime_step_sum (r : ScanRecord) (o o' : counts) :
  riskOverTime_step r o = Ok o' ->
  sum_counts o' = (sum_counts o + if risky_dated r then 1 else 0)%nat.
Proof.
  unfold riskOverTime_step, risky_dated.
  destruct (truthy (timestamp r)) eqn:T; simpl.
  - destruct (call_split (timestamp r) "T"%char) as [parts|]; simpl; [|discriminate].
    destruct (is_string (risk_level r) "High" || is_string (risk_level r) "Suspicious");
      intros [= <-]; [rewrite sum_counts_bump|]; lia.
  - intros [= <-]. lia.
Qed.

Lemma riskOverTime_sum_from (coll : list ScanRecord) (o o' : counts) :
  forEach riskOverTime_step coll o = Ok o' ->
  sum_counts o' = (sum_counts o + List.length (filter risky_dated coll))%nat.
Proof.
  revert o. induction coll as [|r coll IH]; intros o H; simpl in H.
  - injection H as <-. simpl. lia.
  - destruct (riskOverTime_step r o) as [o1|] eqn:E; simpl in H; [|discriminate].
    rewrite (IH _ H), (riskOverTime_step_sum _ _ _ E). simpl.
    destruct (risky_dated r); simpl; lia.
Qed.

Lemma riskOverTime_step_day (r : ScanRecord) (o o' : counts) :
  riskOverTime_step r o = Ok o' ->
  o' = if risky_dated r then bump (day_of r) o else o.
Proof.
  unfold riskOverTime_step, risky_dated, day_of.
  destruct (truthy (timestamp r)) eqn:T; simpl; [|intros [= <-]; reflexivity].
  destruct (timestamp r) as [ | | b | q | s | items | fields ]; simpl;
    try discriminate.
  intros [= <-]. reflexivity.
Qed.

Lemma riskOverTime_tally_from (coll : list ScanRecord) (seen : list string) (o : counts) :
  forEach riskOverTime_step coll (tally seen) = Ok o ->
  o = tally (seen ++ risky_days coll).
Proof.
  revert seen. induction coll as [|r coll IH]; intros seen H; simpl in H.
  - injection H as <-. unfold risky_days. simpl. rewrite app_nil_r. reflexivity.
  - destruct (riskOverTime_step r (tally seen)) as [o1|] eqn:E; simpl in H;
      [|discriminate].
    apply riskOverTime_step_day in E. unfold risky_days. simpl.
    destruct (risky_dated r) eqn:D; simpl.
    + assert (E1 : o1 = tally (seen ++ [day_of r]))
        by (subst o1; unfold tally; rewrite fold_left_app; reflexivity).
      rewrite E1 in H. rewrite (IH _ H). unfold risky_days.
      rewrite <- app_assoc. reflexivity.
    + subst o1. apply IH, H.
Qed.

(** X10: when the [riskOverTime] pass completes and no day it meets is an
    inherited name, the counter is the tally of the days of the collective
    records that have a truthy timestamp and whose risk level is exactly
    [High] or [Suspicious], and its counts add up to the number of these
    records; any other record leaves the counter as it is. Unlike [perDay],
    this pass does not skip an empty day: a High record whose timestamp
    begins with [T] is counted under the empty key. *)
Theorem X10_riskOverTime_counts_risky_records (coll : list ScanRecord) (o : counts) :
  forEach riskOverTime_step coll [] = Ok o ->
  own_keys (risky_days coll) = true ->
  o = tally (risky_days coll)
  /\ sum_counts o = List.length (filter risky_dated coll)
  /\ (sum_counts o <= List.length coll)%nat
  /\ (forall r c c', In r coll -> risky_dated r = false ->
        riskOverTime_step r c = Ok c' -> c' = c)
  /\ (forall r s c, timestamp r = Str (String "T"%char s) ->
        risk_level r = Str "High" ->
        riskOverTime_step r c = Ok (bump "" c)).
Proof.
  intros H _. pose proof (riskOverTime_sum_from coll [] o H) as Hs. simpl in Hs.
  split; [apply (riskOverTime_tally_from coll [] o H)|].
  split; [exact Hs | split; [rewrite Hs; apply filter_length_le | split]].
  - intros r c c' _ Hr. unfold riskOverTime_step, risky_dated in *.
    destruct (truthy (timestamp r)); simpl in *; [|intros [= <-]; reflexivity].
    rewrite Hr.
    destruct (call_split (timestamp r) "T"%char); simpl; [|discriminate].
    intros [= <-]. reflexivity.
  - intros r s c Ht Hl. unfold riskOverTime_step. rewrite Ht, Hl. reflexivity.
Qed.

Lemma X10_riskOverTime_counts_risky_records_witness :
  forEach riskOverTime_step
    [scan "a@example.org" 8 "2025-01-01T00:00:00" "spf_fail"; from_only; bare] []
    = Ok [("2025-01-01", 1%nat)]
  /\ [("2025-01-01", 1%nat)]
     = tally (risky_days
         [scan "a@example.org" 8 "2025-01-01T00:00:00" "spf_fail"; from_only; bare]).
Proof.
  split; [reflexivity|].
  exact (proj1 (X10_riskOverTime_counts_risky_records
    [scan "a@example.org" 8 "2025-01-01T00:00:00" "spf_fail"; from_only; bare]
    [("2025-01-01", 1%nat)] eq_refl eq_refl)).
Defined.

(** ** The order of the days on the scans chart *)

Lemma digits_nondigit (c : ascii) (s : string) (acc : N) :
  contains c s = true -> digit c = None -> digits s acc = None.
Proof.
  revert acc. induction s as [|c' s IH]; simpl; intros acc H Hd; [discriminate|].
  destruct (Ascii.eqb c' c) eqn:E.
  - apply Ascii.eqb_eq in E. subst c'. rewrite Hd. reflexivity.
  - simpl in H. destruct (digit c'); [apply IH; assumption | reflexivity].
Qed.

Lemma array_index_nondigit (c : ascii) (k : string) :
  contains c k = true -> digit c = None -> array_index k = None.
Proof.
  intros H Hd. unfold array_index. destruct k as [|c' r]; [reflexivity|].
  destruct (Ascii.eqb c' "0"%char) eqn:E.
  - apply Ascii.eqb_eq in E. subst c'.
    destruct (r =? "") eqn:R; [|reflexivity].
    apply String.eqb_eq in R. subst r. cbn [contains] in H.
    rewrite orb_false_r in H. apply Ascii.eqb_eq in H. subst c. discriminate.
  - rewrite (digits_nondigit c (String c' r) 0 H Hd). reflexivity.
Qed.

Lemma entries_named (o : counts) :
  Forall (fun k => array_index k = None) (map fst o) -> entries o = o.
Proof.
  intro H. unfold entries.
  assert (Hi : index_props o = [] /\ named_props o = o).
  { induction o as [|e o IH]; [split; reflexivity|].
    inversion H as [|? ? He Ho]; subst. destruct (IH Ho) as [I1 I2].
    unfold index_props, named_props in *. simpl.
    rewrite He, I1, I2. split; reflexivity. }
  destruct Hi as [-> ->]. reflexivity.
Qed.

Lemma first_occurrences_snoc (ks : list string) (k : string) :
  first_occurrences (ks ++ [k]) =
    if existsb (fun s => s =? k) ks then first_occurrences ks
    else first_occurrences ks ++ [k].
Proof.
  unfold first_occurrences. rewrite rev_app_distr. simpl.
  destruct (in_dec string_dec k (rev ks)) as [Hin | Hout].
  - apply in_rev in Hin. apply existsb_eqb_In in Hin. rewrite Hin. reflexivity.
  - destruct (existsb (fun s => s =? k) ks) eqn:E; [|reflexivity].
    apply existsb_eqb_In in E. apply in_rev in E. contradiction.
Qed.

Lemma tally_first_occurrences (ks : list string) :
  map fst (tally ks) = first_occurrences ks.
Proof.
  induction ks as [|k ks IH] using rev_ind; [reflexivity|].
  unfold tally in *. rewrite fold_left_app. simpl.
  rewrite keys_bump, first_occurrences_snoc, IH.
  destruct (existsb (fun s => s =? k) (first_occurrences ks)) eqn:E1,
           (existsb (fun s => s =? k) ks) eqn:E2; try reflexivity; exfalso.
  - apply existsb_eqb_In in E1. rewrite <- IH in E1.
    apply (proj1 (fold_bump_keys ks [] k)) in E1. destruct E1 as [[] | E1].
    apply existsb_eqb_In in E1. congruence.
  - apply existsb_eqb_In in E2.
    assert (In k (first_occurrences ks)).
    { rewrite <- IH. apply (proj2 (fold_bump_keys ks [] k)). right. exact E2. }
    apply existsb_eqb_In in H. congruence.
Qed.

(** X11: a day that contains a character other than a digit, such as the
    dashes of an ISO date, is not an array index; when all days are such
    and none is an inherited name, the scans chart lists each day once, in
    the order in which the days are first met in [scanHistory], which need
    not be chronological. *)
Theorem X11_scans_chart_in_first_seen_order (sh coll : list ScanRecord) (p : Page)
  (m : Metrics.t) :
  computeMetrics sh = Ok m ->
  Forall (fun d => exists c, contains c d = true /\ digit c = None) (days sh) ->
  own_keys (days sh) = true ->
  entries (Metrics.perDay m) = Metrics.perDay m
  /\ map fst (Metrics.perDay m) = first_occurrences (days sh)
  /\ charts (fst (renderCharts sh coll p)) scans = Some (Series (Metrics.perDay m)).
Proof.
  intros Hm Hd _.
  assert (Hp : forEach perDay_step sh [] = Ok (Metrics.perDay m)).
  { unfold computeMetrics in Hm.
    destruct (forEach perDay_step sh []) as [pd|]; simpl in Hm; [|discriminate].
    destruct (forEach byRule_step sh []) as [br|]; simpl in Hm; [|discriminate].
    injection Hm as <-. reflexivity. }
  pose proof (perDay_tally_from sh [] _ Hp) as Ht. simpl in Ht.
  assert (He : entries (Metrics.perDay m) = Metrics.perDay m).
  { apply entries_named. rewrite Ht. apply Forall_forall. intros k Hk.
    apply (proj1 (tally_keys (days sh) k)) in Hk.
    rewrite Forall_forall in Hd. destruct (Hd k Hk) as [c [Hc Hn]].
    eapply array_index_nondigit; eassumption. }
  split; [exact He | split].
  - rewrite Ht. apply tally_first_occurrences.
  - unfold renderCharts, bindM, lift, write. rewrite Hm.
    destruct (forEach riskOverTime_step coll []); simpl; rewrite He; reflexivity.
Qed.

Lemma X11_scans_chart_in_first_seen_order_witness :
  charts (fst (renderCharts
                 [scan "a@example.org" 8 "2025-03-02T00:00:00" "";
                  scan "b@example.org" 2 "2025-01-01T09:30:00" "";
                  scan "a@example.org" 5 "2025-03-02T10:00:00" ""] [] blank)) scans
  = Some (Series [("2025-03-02", 2%nat); ("2025-01-01", 1%nat)]).
Proof.
  apply (proj2 (proj2 (X11_scans_chart_in_first_seen_order
    [scan "a@example.org" 8 "2025-03-02T00:00:00" "";
     scan "b@example.org" 2 "2025-01-01T09:30:00" "";
     scan "a@example.org" 5 "2025-03-02T10:00:00" ""] [] blank
    {| Metrics.high := 1; Metrics.med := 1; Metrics.low := 1;
       Metrics.perDay := [("2025-03-02", 2%nat); ("2025-01-01", 1%nat)];
       Metrics.bySender := [("a@example.org", 2%nat); ("b@example.org", 1%nat)];
       Metrics.byRule := [];
       Metrics.quarantine := 0; Metrics.total := 3;
       Metrics.highPct := fmt (inject_Z 1 / inject_Z 3 * 100) |}
    eq_refl
    ltac:(repeat constructor; exists "-"%char; split; reflexivity)
    eq_refl))).
Defined.

(** ** The trend window *)

Lemma slice_last_app {A} (n : nat) (pre w : list A) :
  (n <= List.length w)%nat -> slice_last n (pre ++ w) = slice_last n w.
Proof.
  intro H. unfold slice_last. rewrite length_app, skipn_app.
  replace (List.length pre + List.length w - n - List.length pre)%nat
    with (List.length w - n)%nat by lia.
  rewrite skipn_all2 by lia. reflexivity.
Qed.

Lemma slice_last_short {A} (n : nat) (l : list A) :
  (List.length l <= n)%nat -> slice_last n l = l.
Proof.
  intro H. unfold slice_last.
  replace (List.length l - n)%nat with 0%nat by lia. reflexivity.
Qed.

Lemma delta64_ends (a b : float) (mid : list float) :
  Binary64.delta (a :: mid ++ [b]) = (b - a)%float.
Proof.
  unfold Binary64.delta. simpl hd. f_equal.
  change (a :: mid ++ [b]) with ((a :: mid) ++ [b]). apply last_last.
Qed.

Lemma classify64_window (a b : float) (mid : list float) :
  (List.length mid <= 3)%nat ->
  Binary64.classify (a :: mid ++ [b]) = Binary64.classify [a; b].
Proof.
  intro H. rewrite !classify64_delta.
  rewrite (slice_last_short 5 (a :: mid ++ [b]))
    by (simpl; rewrite length_app; simpl; lia).
  rewrite (slice_last_short 5 [a; b]) by (simpl; lia).
  rewrite delta64_ends. change [a; b] with (a :: [] ++ [b]).
  rewrite delta64_ends.
  replace (2 <=? List.length (a :: mid ++ [b]))%nat with true
    by (symmetry; apply Nat.leb_le; simpl; rewrite length_app; simpl; lia).
  reflexivity.
Qed.

(** X12: the trend looks at the last five values only, and within them at
    the first and the last only: earlier records do not change it, the
    values in between do not change it, and the trend of a series of five
    or more values is the trend of the pair made of its fifth value from
    the end and its last value. *)
Theorem X12_trend_window (pre w mid : list float) (a b : float) :
  ((5 <= List.length w)%nat ->
     Binary64.classify (pre ++ w) = Binary64.classify w)
  /\ ((List.length mid <= 3)%nat ->
     Binary64.classify (a :: mid ++ [b]) = Binary64.classify [a; b])
  /\ (List.length mid = 3%nat ->
     Binary64.classify (pre ++ a :: mid ++ [b]) = Binary64.classify [a; b])
  /\ Binary64.classify [a; b]
     = if (1 <? b - a)%float then Rising
       else if (b - a <? -1)%float then Falling
       else Stable.
Proof.
  assert (Hpre : forall l, (5 <= List.length l)%nat ->
            Binary64.classify (pre ++ l) = Binary64.classify l).
  { intros l H. rewrite !classify64_delta, slice_last_app by exact H. reflexivity. }
  split; [apply Hpre | split; [apply classify64_window | split; [|reflexivity]]].
  intro H. rewrite Hpre by (simpl; rewrite length_app; simpl; lia).
  apply classify64_window. lia.
Qed.

(** ** Records without AI details *)

Lemma ai_input_no_details (f : AiDetails -> option Q) (e : ScanRecord) :
  ai_details e = None -> ai_input f e = score_of e.
Proof.
  intro H. unfold ai_input, sub_score, score_of. rewrite H. reflexivity.
Qed.

(** X13: when no record carries [ai_details], the three AI averages are one
    and the same number, the rounded mean of the scores, and the trend is
    the trend of the scores. *)
Theorem X13_ai_panel_without_details (sh : list ScanRecord) (p : Page) :
  Forall (fun e => ai_details e = None) sh ->
  aiZSAvg (fst (updateAIMetrics sh p)) = fmt (avg (map score_of sh))
  /\ aiTRAvg (fst (updateAIMetrics sh p)) = fmt (avg (map score_of sh))
  /\ aiHYAvg (fst (updateAIMetrics sh p)) = fmt (avg (map score_of sh))
  /\ aiTrend (fst (updateAIMetrics sh p)) = classify (map score_of sh)
  /\ aiOverallScoreEl (fst (updateAIMetrics sh p))
     = Math_round (fmt (avg (map score_of sh))).
Proof.
  intro H.
  assert (E : forall f, map (ai_input f) sh = map score_of sh).
  { intro f. apply map_ext_in. intros e He. rewrite Forall_forall in H.
    apply ai_input_no_details, H, He. }
  unfold updateAIMetrics, write. simpl. rewrite !E. repeat split; reflexivity.
Qed.

Lemma X13_ai_panel_without_details_witness :
  aiZSAvg (fst (updateAIMetrics
                  [scan "a@example.org" 8 "2025-01-01T00:00:00" ""; bare] blank))
  = fmt (avg (map score_of [scan "a@example.org" 8 "2025-01-01T00:00:00" ""; bare])).
Proof.
  apply (proj1 (X13_ai_panel_without_details
                  [scan "a@example.org" 8 "2025-01-01T00:00:00" ""; bare] blank
                  ltac:(repeat constructor))).
Defined.

(** ** What an update leaves on the page *)


Lemma updateDashboard_cases (sh coll : list ScanRecord) (p : Page) :
  match computeMetrics sh with
  | TypeError => updateDashboard sh coll p = (p, TypeError)
  | Ok m =>
      match forEach riskOverTime_step coll [] with
      | TypeError => updateDashboard sh coll p = (all_but_trend sh coll m p, TypeError)
      | Ok rt =>
          updateDashboard sh coll p
          = (set_charts (draw trend (Series (entries rt))) (all_but_trend sh coll m p),
             Ok tt)
      end
  end.
Proof.
  unfold updateDashboard, renderCharts, updateAIMetrics, bindM, lift, write.
  destruct (computeMetrics sh) as [m|]; [|reflexivity].
  destruct (forEach riskOverTime_step coll []); reflexivity.
Qed.

(** X14: an update that completes rewrites every element and every chart:
    what the page shows afterwards does not depend on what it showed
    before, and the "last refreshed" text is not touched. In every case,
    completed or not, running the same update again changes nothing. *)
Theorem X14_update_overwrites_the_page (sh coll : list ScanRecord) (p p' : Page) :
  (snd (updateDashboard sh coll p) = Ok tt ->
     snd (updateDashboard sh coll p') = Ok tt
     /\ same_view (fst (updateDashboard sh coll p)) (fst (updateDashboard sh coll p')))
  /\ lastRefEl (fst (updateDashboard sh coll p)) = lastRefEl p
  /\ updateDashboard sh coll (fst (updateDashboard sh coll p))
     = (fst (updateDashboard sh coll (fst (updateDashboard sh coll p))),
        snd (updateDashboard sh coll p))
  /\ same_view (fst (updateDashboard sh coll (fst (updateDashboard sh coll p))))
               (fst (updateDashboard sh coll p)).
Proof.
  pose proof (updateDashboard_cases sh coll p) as C.
  pose proof (updateDashboard_cases sh coll p') as C'.
  pose proof (updateDashboard_cases sh coll (fst (updateDashboard sh coll p))) as C2.
  destruct (computeMetrics sh) as [m|].
  -     destruct (forEach riskOverTime_step coll []) as [rt|];
      rewrite C in *; rewrite C'; rewrite C2; cbn [fst snd].
    + split; [intros _; split; [reflexivity|] | split; [reflexivity | split; [reflexivity|]]];
        unfold same_view; cbn; repeat split; intro id; destruct id; reflexivity.
    + split; [discriminate | split; [reflexivity | split; [reflexivity|]]].
      unfold same_view; cbn; repeat split; intro id; destruct id; reflexivity.
  - rewrite C in *. rewrite C2. cbn [fst snd].
    split; [discriminate | split; [reflexivity | split; [reflexivity|]]].
    unfold same_view. repeat split; reflexivity.
Qed.

(** X15: where an update stops when it throws. If [computeMetrics] throws,
    nothing on the page has changed. If only the pass over [collective]
    throws (a truthy non-string timestamp), the cards, the AI panel and five
    charts already show the new values, and the high-risk trend chart,
    destroyed at the start of [renderCharts], is left without a chart. *)
Theorem X15_where_a_failed_update_stops (sh coll : list ScanRecord) (p : Page) :
  (computeMetrics sh = TypeError -> updateDashboard sh coll p = (p, TypeError))
  /\ (forall m, computeMetrics sh = Ok m ->
        forEach riskOverTime_step coll [] = TypeError ->
        snd (updateDashboard sh coll p) = TypeError
        /\ totalScansEl (fst (updateDashboard sh coll p)) = Metrics.total m
        /\ highRiskPctEl (fst (updateDashboard sh coll p)) = Metrics.highPct m
        /\ quarantineCountEl (fst (updateDashboard sh coll p)) = Metrics.quarantine m
        /\ aiTrend (fst (updateDashboard sh coll p))
           = classify (map (ai_input hybrid_score) sh)
        /\ charts (fst (updateDashboard sh coll p)) risk
           = Some (Doughnut (Metrics.high m) (Metrics.med m) (Metrics.low m))
        /\ charts (fst (updateDashboard sh coll p)) rules
           = Some (Series (top7 (Metrics.byRule m)))
        /\ charts (fst (updateDashboard sh coll p)) senders
           = Some (Series (top7 (collSenders_of coll)))
        /\ charts (fst (updateDashboard sh coll p)) trend = None)
  /\ (forall r, In r coll -> string_or_falsy (timestamp r) = false ->
        forEach riskOverTime_step coll [] = TypeError).
Proof.
  pose proof (updateDashboard_cases sh coll p) as C.
  split; [|split].
  - intro H. rewrite H in C. exact C.
  - intros m Hm Hr. rewrite Hm in C. rewrite Hr in C.
    rewrite C. cbn. repeat split; reflexivity.
  - intros r Hin Hr.
    destruct (forEach riskOverTime_step coll []) as [rt|] eqn:E; [|reflexivity].
    pose proof (forEach_inv riskOverTime_step _ coll riskOverTime_step_inv _ _ E) as F.
    rewrite Forall_forall in F. rewrite (F r Hin) in Hr. discriminate.
Qed.

(** ** A refresh that delivers records *)

Lemma updateDashboard_lastRef (sh coll : list ScanRecord) (p : Page) :
  lastRefEl (fst (updateDashboard sh coll p)) = lastRefEl p.
Proof.
  pose proof (updateDashboard_cases sh coll p) as C.
  destruct (computeMetrics sh) as [m|]; [|rewrite C; reflexivity].
  destruct (forEach riskOverTime_step coll []); rewrite C; reflexivity.
Qed.

(** X16: a refresh whose response is ok and parses always replaces
    [scanHistory] and [collective] by the delivered arrays, an array that is
    missing counting as empty, even when the update of the page then throws.
    The "last refreshed" text is renewed when the update completes, that is
    when the delivered records can all be split, and is left as it was
    otherwise; when [computeMetrics] throws the page keeps showing the old
    values although the records held are the new ones. *)
Theorem X16_delivered_records_are_always_taken
  (now : string) (sh cs : option (list ScanRecord)) (st : State) :
  let st' := autoRefresh now (Response true (Parsed sh cs)) st in
  scanHistory st' = or_empty sh
  /\ collective st' = or_empty cs
  /\ (Forall (fun e => wf_local e = true) (or_empty sh)
      /\ Forall (fun r => wf_collective r = true) (or_empty cs) ->
      lastRefEl (page st') = ("Last refreshed: " ++ now)%string)
  /\ (~ (Forall (fun e => wf_local e = true) (or_empty sh)
         /\ Forall (fun r => wf_collective r = true) (or_empty cs)) ->
      lastRefEl (page st') = lastRefEl (page st))
  /\ (computeMetrics (or_empty sh) = TypeError -> page st' = page st)
  /\ (sh = None -> scanHistory st' = [] /\ totalScansEl (page st') = 0%nat).
Proof.
  intro st'. subst st'. unfold autoRefresh.
  pose proof (updateDashboard_lastRef (or_empty sh) (or_empty cs) (page st)) as L.
  pose proof (updateDashboard_ok (or_empty sh) (or_empty cs) (page st)) as Hok.
  pose proof (updateDashboard_ok_inv (or_empty sh) (or_empty cs) (page st)) as Hinv.
  pose proof (updateDashboard_cases (or_empty sh) (or_empty cs) (page st)) as C.
  destruct (updateDashboard (or_empty sh) (or_empty cs) (page st)) as [q r] eqn:U.
  cbn [fst snd scanHistory collective page] in *.
  split; [reflexivity | split; [reflexivity | split; [|split; [|split]]]].
  - intros [H1 H2]. rewrite (Hok H1 H2). reflexivity.
  - intro Hn. destruct r as [[]|]; [|exact L].
    exfalso. apply Hn. apply Hinv. reflexivity.
  - intro Hc. rewrite Hc in C. injection C as -> ->. reflexivity.
  - intros ->. split; [reflexivity|]. cbn [or_empty] in C.
    change (computeMetrics []) with (Ok {| Metrics.high := 0; Metrics.med := 0;
      Metrics.low := 0; Metrics.perDay := []; Metrics.bySender := [];
      Metrics.byRule := []; Metrics.quarantine := 0; Metrics.total := 0;
      Metrics.highPct := 0 |}) in C.
    destruct (forEach riskOverTime_step (or_empty cs) []);
      injection C as -> ->; reflexivity.
Qed.

(** ** Any schedule of the auto-refresh timer *)

Lemma autoRefresh_no_delivery (now : string) (o : FetchOutcome) (st : State) :
  delivers o = false -> autoRefresh now o st = st.
Proof.
  destruct o as [|[|] [|sh cs]]; simpl; intro H; try reflexivity; discriminate.
Qed.

Lemma apply_settles_delivering (l : list (string * FetchOutcome)) (st : State) :
  apply_settles l st = apply_settles (filter (fun x => delivers (snd x)) l) st.
Proof.
  unfold apply_settles. revert st. induction l as [|[now o] l IH]; intro st;
    [reflexivity|].
  cbn [fold_left filter fst snd]. destruct (delivers o) eqn:D.
  - cbn [fold_left fst snd]. apply IH.
  - rewrite (autoRefresh_no_delivery now o st D). apply IH.
Qed.


(** X17: in any schedule of timer firings and settling fetches, overlapping
    or not, the records and the page at the end are what the delivering
    responses make of them, applied in the order in which they settled:
    fetches that fail can be struck from the schedule. The callbacks still
    in flight are the firings that have not settled. *)
Theorem X17_only_delivering_responses_matter
  (evs : list Static.Event) (s s' : Scheduler) :
  Static.run evs s = Some s' ->
  state s' = apply_settles (settles evs) (state s)
  /\ state s' = apply_settles (filter (fun x => delivers (snd x)) (settles evs)) (state s)
  /\ (inflight s' + List.length (settles evs) = inflight s + ticks evs)%nat.
Proof.
  intro H.
  assert (G : state s' = apply_settles (settles evs) (state s)
              /\ (inflight s' + List.length (settles evs) = inflight s + ticks evs)%nat).
  { revert s H. induction evs as [|ev evs IH]; intros s H; simpl in H.
    - injection H as <-. split; [reflexivity | unfold ticks; simpl; lia].
    - destruct (Static.step ev s) as [s1|] eqn:E; [|discriminate].
      destruct (IH s1 H) as [I1 I2].
      destruct ev as [|now o]; simpl in E.
      + injection E as <-. simpl in *. split; [exact I1|].
        unfold ticks in *. simpl. lia.
      + destruct (inflight s) as [|n] eqn:F; [discriminate|].
        injection E as <-. simpl in *. split; [exact I1|].
        unfold ticks in *. simpl. lia. }
  destruct G as [G1 G2]. split; [exact G1 | split; [|exact G2]].
  rewrite G1. apply apply_settles_delivering.
Qed.

Lemma X17_only_delivering_responses_matter_witness :
  Static.run [Tick; Tick; Settle "now" Rejected;
              Settle "later" (Response false InvalidJson)]
    {| state := {| scanHistory := [bare]; collective := []; page := blank |};
       inflight := 0 |}
  = Some {| state := {| scanHistory := [bare]; collective := []; page := blank |};
            inflight := 0 |}
  /\ state {| state := {| scanHistory := [bare]; collective := []; page := blank |};
              inflight := 0 |}
     = apply_settles
         (filter (fun x => delivers (snd x))
            (settles [Tick; Tick; Settle "now" Rejected;
                      Settle "later" (Response false InvalidJson)]))
         (state {| state := {| scanHistory := [bare]; collective := []; page := blank |};
                   inflight := 0 |}).
Proof.
  split; [reflexivity|].
  exact (proj1 (proj2 (X17_only_delivering_responses_matter
    [Tick; Tick; Settle "now" Rejected; Settle "later" (Response false InvalidJson)]
    {| state := {| scanHistory := [bare]; collective := []; page := blank |};
       inflight := 0 |}
    {| state := {| scanHistory := [bare]; collective := []; page := blank |};
       inflight := 0 |} eq_refl))).
Defined.

(** ** Any schedule of a manual rescan *)


Lemma rescan_inv_step (ev : React.Event) (d d' : React.Dash) :
  rescan_inv d -> React.step ev d = Some d' -> rescan_inv d'.
Proof.
  intros [I1 [I2 [I3 I4]]] H. unfold rescan_inv.
  destruct ev as [|o]; unfold React.step in H; cbv zeta in H.
  - destruct (React.interval d) eqn:E; [|discriminate].
    injection H as <-. simpl. repeat split; try lia; try congruence.
  - destruct (React.pending d) as [|n] eqn:P; [discriminate|].
    change (React.polls (React.fetchDashboardData o d)) with (React.polls d) in H.
    destruct (5 <=? React.polls d)%nat eqn:S5; injection H as <-;
      cbn [React.requests React.polls React.pending React.rescanLoading
           React.interval React.fetchDashboardData].
    + apply Nat.leb_le in S5.
      split; [exact I1 | split; [lia | split; [reflexivity | intros _; exact S5]]].
    + split; [exact I1 | split; [lia | split; [exact I3 | exact I4]]].
Qed.

Lemma rescan_inv_run (evs : list React.Event) (d d' : React.Dash) :
  rescan_inv d -> React.run evs d = Some d' -> rescan_inv d'.
Proof.
  revert d. induction evs as [|ev evs IH]; intros d Hi H; simpl in H.
  - injection H as <-. exact Hi.
  - destruct (React.step ev d) as [d1|] eqn:E; [|discriminate].
    apply (IH d1); [eapply rescan_inv_step; eassumption | exact H].
Qed.

Lemma cleared_stays (evs : list React.Event) (d d' : React.Dash) :
  React.interval d = false -> React.run evs d = Some d' ->
  React.interval d' = false /\ React.requests d' = React.requests d
  /\ React.polls d' = React.polls d.
Proof.
  revert d. induction evs as [|ev evs IH]; intros d Hi H; simpl in H.
  - injection H as <-. auto.
  - destruct (React.step ev d) as [d1|] eqn:E; [|discriminate].
    assert (H1 : React.interval d1 = false /\ React.requests d1 = React.requests d
                 /\ React.polls d1 = React.polls d).
    { destruct ev as [|o]; unfold React.step in E; cbv zeta in E.
      - rewrite Hi in E. discriminate.
      - destruct (React.pending d); [discriminate|].
        change (React.polls (React.fetchDashboardData o d)) with (React.polls d) in E.
        destruct (5 <=? React.polls d)%nat; injection E as <-;
          cbn [React.requests React.polls React.pending React.rescanLoading
               React.interval React.fetchDashboardData]; auto. }
    destruct H1 as [A [B C]]. destruct (IH d1 A H) as [A' [B' C']].
    repeat split; congruence.
Qed.

(** X18: one rescan, started on a page on which no rescan has run before,
    and no other rescan started meanwhile. Whatever the order in which the
    timer of that [handleRescan] call fires and its fetches settle, every
    firing makes exactly one fetch, the Rescan button stays disabled
    exactly as long as the timer is armed, the timer is never cleared
    before the fifth poll has been made, and once it is cleared that call
    makes no further poll. *)
Theorem X18_rescan_in_any_schedule
  (json : option value) (evs evs' : list React.Event) (d d' : React.Dash) :
  React.run evs (React.handleRescan true (React.mounted json)) = Some d ->
  React.requests d = React.polls d
  /\ (React.pending d <= React.requests d)%nat
  /\ React.rescanLoading d = React.interval d
  /\ (React.interval d = false -> (5 <= React.requests d)%nat)
  /\ (React.interval d = false -> React.run evs' d = Some d' ->
      React.interval d' = false /\ React.requests d' = React.requests d).
Proof.
  intro H.
  assert (I0 : rescan_inv (React.handleRescan true (React.mounted json))).
  { unfold rescan_inv. simpl. repeat split; auto. discriminate. }
  destruct (rescan_inv_run evs _ d I0 H) as [I1 [I2 [I3 I4]]].
  repeat split; try assumption; try lia.
  - intro Hc. rewrite I1. apply I4, Hc.
  - destruct (cleared_stays evs' d d' H0 H1) as [A _]. exact A.
  - destruct (cleared_stays evs' d d' H0 H1) as [_ [B _]]. exact B.
Qed.

Lemma X18_rescan_in_any_schedule_witness :
  React.run [React.Fire; React.Fire; React.Resume React.Failed]
            (React.handleRescan true (React.mounted None))
  = Some {| React.data := None; React.loading := false;
            React.rescanLoading := true; React.polls := 2;
            React.interval := true; React.pending := 1; React.requests := 2 |}
  /\ React.requests {| React.data := None; React.loading := false;
            React.rescanLoading := true; React.polls := 2;
            React.interval := true; React.pending := 1; React.requests := 2 |}
     = React.polls {| React.data := None; React.loading := false;
            React.rescanLoading := true; React.polls := 2;
            React.interval := true; React.pending := 1; React.requests := 2 |}.
Proof.
  split; [reflexivity|].
  exact (proj1 (X18_rescan_in_any_schedule None
    [React.Fire; React.Fire; React.Resume React.Failed] []
    {| React.data := None; React.loading := false;
       React.rescanLoading := true; React.polls := 2;
       React.interval := true; React.pending := 1; React.requests := 2 |}
    {| React.data := None; React.loading := false;
       React.rescanLoading := true; React.polls := 2;
       React.interval := true; React.pending := 1; React.requests := 2 |}
    eq_refl)).
Defined.

(** ** What the React page keeps showing *)


(** X19: through any schedule of polls the page data is the body of the
    last fetch that succeeded, and the data it had before when none did: a
    failed fetch never clears what is shown. After the first fetch has
    settled, successfully or not, the loading flag is off. *)
Theorem X19_failed_polls_keep_the_data
  (evs : list React.Event) (d d' : React.Dash) :
  React.run evs d = Some d' ->
  React.data d' = last_fetched evs (React.data d)
  /\ (has_resume evs = true -> React.loading d' = false)
  /\ (has_resume evs = false -> React.loading d' = React.loading d
                                /\ React.data d' = React.data d).
Proof.
  revert d. induction evs as [|ev evs IH]; intros d H; simpl in H.
  - injection H as <-. simpl. repeat split; auto. discriminate.
  - destruct (React.step ev d) as [d1|] eqn:E; [|discriminate].
    destruct (IH d1 H) as [I1 [I2 I3]].
    destruct ev as [|o]; simpl in E.
    + destruct (React.interval d); [|discriminate]. injection E as <-.
      simpl in *. repeat split; auto; apply I3; assumption.
    + destruct (React.pending d); [discriminate|]. injection E as <-.
      cbn [React.data React.loading React.fetchDashboardData] in I1, I2, I3.
      split; [|split].
      * destruct o; exact I1.
      * intros _. destruct (has_resume evs) eqn:X; [apply I2; reflexivity|].
        destruct (I3 eq_refl) as [L _]. exact L.
      * cbn [has_resume existsb orb]. discriminate.
Qed.

Lemma X19_failed_polls_keep_the_data_witness :
  React.data {| React.data := Some (Str "first"); React.loading := false;
                React.rescanLoading := true; React.polls := 2;
                React.interval := true; React.pending := 0; React.requests := 2 |}
  = last_fetched [React.Fire; React.Resume (React.Fetched (Str "first"));
                  React.Fire; React.Resume React.Failed] None.
Proof.
  exact (proj1 (X19_failed_polls_keep_the_data
    [React.Fire; React.Resume (React.Fetched (Str "first"));
     React.Fire; React.Resume React.Failed]
    (React.handleRescan true (React.mounted None))
    {| React.data := Some (Str "first"); React.loading := false;
       React.rescanLoading := true; React.polls := 2;
       React.interval := true; React.pending := 0; React.requests := 2 |}
    eq_refl)).
Defined.
